(** * django_stubs_test_driver: the YAML case compiler and the scenario runner

    A shallow embedding of [definition.py] and [scenario.py] of
    [scripts/test_helpers/django_stubs_test_driver], with the line marker of
    [collect.py] and the cache cleaner of [plugin.py], and the properties of
    the case compiler, of the mypy argument derivation, of the shared cache
    eviction, of the settings synthesis and of the text transforms.

    What the driver calls in other libraries is a parameter of the model:
    [eval], the template rendering of jinja2, the [ConfigParser] behind
    [combine_ini_files] and the assignment changer of pytest_typing_runner.

    Python data is modelled as follows.
    - [str] is [string]; a Rocq string is a sequence of bytes, read as the
      UTF-8 encoding of the Python string (the order on byte sequences is
      then the order of Python on code points).
    - a [list] is a [list]; a [dict] is an association list in insertion
      order; [None] in an optional position is [None].
    - a raised exception is the [Raise] case of [result].
    - the file system is a finite map from paths to nodes; it speaks for
      the operating system on plain paths, whose parts name entries. *)

From Stdlib Require Import Ascii ZArith Lia DecimalString DecimalPos DecimalZ.
From stdpp Require Import gmap strings list fin_maps sorting.

(** * Python values and the string and list operations the driver uses *)

Module Py.

(** The newline character of the string literals of the source. *)
Definition nl : string := String "010"%char "".

(** The values a case document carries, and the objects an expression
    evaluates to: [None], the booleans, the integers and the strings; and
    [VObject], a value of any other type (a float, a date, a list, a
    mapping, a module), which is given by the text that [str] returns for it
    and by its truth value.  A value of another type is equal to none of
    the first four kinds. *)
Inductive value :=
| VNone
| VBool (b : bool)
| VInt (z : Z)
| VStr (s : string)
| VObject (text : string) (truth : bool).

Global Instance value_eq_dec : EqDecision value.
Proof. solve_decision. Defined.

(** [str(v)], which is also what an f-string field [{v}] renders. *)
Definition str (v : value) : string :=
  match v with
  | VNone => "None"
  | VBool true => "True"
  | VBool false => "False"
  | VInt z => NilZero.string_of_int (Z.to_int z)
  | VStr s => s
  | VObject text _ => text
  end.

(** [bool(v)] *)
Definition truthy (v : value) : bool :=
  match v with
  | VNone => false
  | VBool b => b
  | VInt z => negb (z =? 0)%Z
  | VStr s => negb (String.eqb s "")
  | VObject _ truth => truth
  end.

(** [sep.join(l)] *)
Definition join (sep : string) (l : list string) : string := String.concat sep l.

(** [s.startswith(p)] *)
Definition startswith (s p : string) : bool := String.prefix p s.

(** [sub in s] on strings *)
Fixpoint contains (sub s : string) : bool :=
  String.prefix sub s ||
  match s with
  | EmptyString => false
  | String _ s' => contains sub s'
  end.


(** [s.replace(old, new)] for a non-empty [old]: one pass from the left,
    the occurrences replaced do not overlap.  [skip] counts the characters
    of the occurrence being replaced that are still to be dropped. *)
Fixpoint replace_go (old new : string) (skip : nat) (s : string) : string :=
  match s with
  | EmptyString => EmptyString
  | String c s' =>
      match skip with
      | S k => replace_go old new k s'
      | O =>
          if String.prefix old s
          then new +:+ replace_go old new (String.length old - 1) s'
          else String c (replace_go old new 0 s')
      end
  end.

Definition replace (old new s : string) : string := replace_go old new 0 s.

(** [s[n:]] *)
Fixpoint drop_s (n : nat) (s : string) : string :=
  match n, s with
  | O, _ => s
  | S k, String _ s' => drop_s k s'
  | S _, EmptyString => EmptyString
  end.

(** [s.endswith(suffix)] *)
Definition endswith (s suffix : string) : bool :=
  String.eqb (drop_s (String.length s - String.length suffix) s) suffix.

(** [s.partition(sep)] for a separator of one character. *)
Fixpoint partition (sep : ascii) (s : string) : string * string * string :=
  match s with
  | EmptyString => ("", "", "")
  | String c s' =>
      if Ascii.eqb c sep then ("", String sep "", s')
      else
        let '(before, found, after) := partition sep s' in
        (String c before, found, after)
  end.

(** [s.split(sep)] for a separator of one character. *)
Fixpoint split (sep : ascii) (s : string) : list string :=
  match s with
  | EmptyString => [""]
  | String c s' =>
      if Ascii.eqb c sep then "" :: split sep s'
      else
        match split sep s' with
        | x :: l => String c x :: l
        | [] => [String c ""]
        end
  end.

(** [s.replace(old, new, 1)]: the first occurrence only; an empty [old]
    occurs at the start. *)
Fixpoint replace_first (old new s : string) : string :=
  if String.prefix old s then new +:+ drop_s (String.length old) s
  else
    match s with
    | EmptyString => EmptyString
    | String c s' => String c (replace_first old new s')
    end.

(** [d[k] = v] and [d.get(k)] on a dict in insertion order. *)
Fixpoint dict_set {V : Type} (k : string) (v : V) (d : list (string * V))
  : list (string * V) :=
  match d with
  | [] => [(k, v)]
  | (k', v') :: d' =>
      if decide (k' = k) then (k, v) :: d' else (k', v') :: dict_set k v d'
  end.

Fixpoint dict_get {V : Type} (k : string) (d : list (string * V)) : option V :=
  match d with
  | [] => None
  | (k', v') :: d' => if decide (k' = k) then Some v' else dict_get k d'
  end.

(** [x in l] on lists of strings *)
Definition mem (x : string) (l : list string) : bool := bool_decide (x ∈ l).

(** [l.index(x)], where [x in l] *)
Fixpoint index (x : string) (l : list string) : nat :=
  match l with
  | [] => 0
  | y :: l' => if decide (y = x) then 0 else S (index x l')
  end.

(** [l.pop(i)] for [i] in range: the list without its element [i] *)
Definition pop (i : nat) (l : list string) : list string := take i l ++ drop (S i) l.

(** [l.count(x)] *)
Fixpoint count (x : string) (l : list string) : nat :=
  match l with
  | [] => 0
  | y :: l' => (if decide (y = x) then 1 else 0) + count x l'
  end.

(** [l.remove(x)], where [x in l]: the first occurrence is removed *)
Fixpoint remove (x : string) (l : list string) : list string :=
  match l with
  | [] => []
  | y :: l' => if decide (y = x) then l' else y :: remove x l'
  end.

(** [sorted(l)] on strings.  Python's sort is stable, and the order on
    strings is total and antisymmetric, so the result is the one sorted
    arrangement of [l]; insertion sort computes it. *)
Fixpoint insert_sorted (x : string) (l : list string) : list string :=
  match l with
  | [] => [x]
  | y :: l' => if String.leb x y then x :: l else y :: insert_sorted x l'
  end.

Definition sorted (l : list string) : list string := foldr insert_sorted [] l.

(** A continuation byte of UTF-8: [10xxxxxx]. *)
Definition is_continuation (c : ascii) : bool :=
  match c with
  | Ascii _ _ _ _ _ _ b6 b7 => b7 && negb b6
  end.

(** [list(s)]: the characters of the string [s], each as a string.  A
    character is written as one byte that is no continuation byte, followed
    by its continuation bytes. *)
Fixpoint chars (s : string) : list string :=
  match s with
  | EmptyString => []
  | String c s' =>
      let l := chars s' in
      match s' with
      | String c' _ =>
          if is_continuation c' then
            match l with
            | x :: l' => String c x :: l'
            | [] => [String c ""]
            end
          else String c "" :: l
      | EmptyString => String c "" :: l
      end
  end.

(** The names that [eval(source, globals)] evaluates the expression with:
    [eval] inserts [__builtins__] into [globals] when that name is not bound
    there, so the names of the builtins resolve beside those of
    [globals]. *)
Definition eval_namespace (globals : list string) : list string :=
  if bool_decide ("__builtins__" ∈ globals) then globals
  else globals ++ ["__builtins__"].

End Py.

(** Exceptions and results.  [ValueError_same_keys] is the error of line 26
    of definition.py, with the two texts its message is formatted from:
    [", ".join(sorted(list(by_keys)[0]))], which is the characters of the
    first key string, sorted and joined, and [keys]; [ValueError_defensive]
    is the one of line 36; [ValueError_empty_name] is the one of
    [with_suffix]; [NameError] is what the evaluation of an unbound name
    raises, and [EvalRaised] stands for what else an evaluated expression
    raises. *)
Inductive exn :=
| ValueError_same_keys (first_entry spotted : string)
| ValueError_defensive
| ValueError_empty_name
| NameError
| EvalRaised
| IsADirectoryError
| NotADirectoryError
| FileNotFoundError
| OSError_not_empty.

Global Instance exn_eq_dec : EqDecision exn.
Proof. solve_decision. Defined.

Inductive result (A : Type) :=
| Ok (a : A)
| Raise (e : exn).
Arguments Ok {A} a.
Arguments Raise {A} e.

Global Instance result_eq_dec `{EqDecision A} : EqDecision (result A).
Proof. solve_decision. Defined.

Global Instance result_ret : MRet result := λ A a, Ok a.
Global Instance result_bind : MBind result := λ A B k r,
  match r with
  | Ok a => k a
  | Raise e => Raise e
  end.

(** What a generator produced: the values it yielded, in order, and the
    exception that ended it, if one did. *)
Record generated (A : Type) := Generated {
  yielded : list A;
  raised : option exn;
}.
Arguments Generated {A} yielded raised.
Arguments yielded {A} g.
Arguments raised {A} g.

(** * definition.py *)

Module Definitions.

(** A parametrization mapping: a YAML mapping from names to scalars, in the
    order of the document. *)
Definition mapping : Type := list (string * Py.value).

(** [", ".join(sorted(param))]: iterating a dict gives its keys. *)
Definition keys_of (param : mapping) : string :=
  Py.join ", " (Py.sorted (param.*1)).

(** [{k: v for k, v in param.items() if not k.startswith("__")}] *)
Definition strip (param : mapping) : mapping :=
  filter (λ kv, Py.startswith kv.1 "__" = false) param.

(** [by_keys]: a [defaultdict(list)], in insertion order. *)
Definition by_keys_t : Type := list (string * list mapping).

(** [by_keys[keys].append(x)] *)
Fixpoint by_keys_append (keys : string) (x : mapping) (by_keys : by_keys_t) : by_keys_t :=
  match by_keys with
  | [] => [(keys, [x])]
  | (k, l) :: rest =>
      if decide (k = keys) then (k, l ++ [x]) :: rest
      else (k, l) :: by_keys_append keys x rest
  end.

(** The [for] loop of [_parse_parametrized], lines 23-32. *)
Fixpoint parse_loop (params : list mapping) (by_keys : by_keys_t) : result by_keys_t :=
  match params with
  | [] => Ok by_keys
  | param :: rest =>
      let keys := keys_of param in
      if negb (bool_decide (by_keys = [])) && negb (bool_decide (keys ∈ by_keys.*1))
      then
        let first_entry := default "" (head by_keys.*1) in
        Raise (ValueError_same_keys
                 (Py.join ", " (Py.sorted (Py.chars first_entry))) keys)
      else parse_loop rest (by_keys_append keys (strip param) by_keys)
  end.

(** [_parse_parametrized] is a generator that [from_yaml] consumes with
    [list(...)]; it raises before its first [yield] or not at all, so the
    outcome is the exception or the whole list. *)
Definition _parse_parametrized (params : list mapping) : result (list mapping) :=
  if bool_decide (params = []) then Ok [[]]
  else
    by_keys ← parse_loop params [];
    if bool_decide (length by_keys ≠ 1) then Raise ValueError_defensive
    else Ok (concat by_keys.*2).

(** The [skip] field: [Union[bool, str]]. *)
Inductive skip_t :=
| SkipBool (b : bool)
| SkipStr (s : string).

(** The names of the globals that [_run_skip] hands to [eval]. *)
Definition skip_globals : list string := ["sys"; "os"; "pytest"; "platform"].

Record ItemDefinition := {
  case : string;
  starting_lineno : Z;
  out : string;
  main : string;
  skip : skip_t;
  files : list (string * option string);
  start : list string;
  regex : bool;
  mypy_config : string;
  expect_fail : bool;
  monkeypatch : bool;
  disable_cache : bool;
  installed_apps : list Py.value;
  custom_settings : string;
  django_settings_module : string;
  environment_variables : list (string * option string);
  item_params : mapping;
}.

(** [ItemDefinition(case=..., starting_lineno=...)]: the other fields at
    the defaults the dataclass declares. *)
Definition new_item (case : string) (starting_lineno : Z) : ItemDefinition :=
  {| case := case; starting_lineno := starting_lineno; out := ""; main := "";
     skip := SkipBool false; files := []; start := ["main.py"]; regex := false;
     mypy_config := ""; expect_fail := false; monkeypatch := false;
     disable_cache := false; installed_apps := []; custom_settings := "";
     django_settings_module := "mysettings"; environment_variables := [];
     item_params := [] |}.

(** Lines 142-145: [dataclasses.replace(nxt)] with copies of [files] and
    [environment_variables], and [item_params] set. *)
Definition clone_with (nxt : ItemDefinition) (params : mapping) : ItemDefinition :=
  {| case := case nxt; starting_lineno := starting_lineno nxt; out := out nxt;
     main := main nxt; skip := skip nxt; files := files nxt; start := start nxt;
     regex := regex nxt; mypy_config := mypy_config nxt;
     expect_fail := expect_fail nxt; monkeypatch := monkeypatch nxt;
     disable_cache := disable_cache nxt; installed_apps := installed_apps nxt;
     custom_settings := custom_settings nxt;
     django_settings_module := django_settings_module nxt;
     environment_variables := environment_variables nxt;
     item_params := params |}.

Section Eval.

(** The evaluation of a Python expression in a namespace, given by the
    names bound there: the value of the expression, or the exception it
    raises.  The environment it reads does not change while one document is
    compiled. *)
Variable py_eval : string → list string → result Py.value.

Definition _run_skip (skip : skip_t) : result bool :=
  match skip with
  | SkipBool b => Ok b
  | SkipStr s =>
      if decide (s = "True") then Ok true
      else if decide (s = "False") then Ok false
      else v ← py_eval s (Py.eval_namespace skip_globals); Ok (Py.truthy v)
  end.

(** Lines 141-148 of [from_yaml]: one clone for each entry of
    [parametrized], yielded unless it is skipped. *)
Fixpoint yield_variants (nxt : ItemDefinition) (parametrized : list mapping)
  : generated ItemDefinition :=
  match parametrized with
  | [] => Generated [] None
  | params :: rest =>
      let clone := clone_with nxt params in
      match _run_skip (skip clone) with
      | Raise e => Generated [] (Some e)
      | Ok true => yield_variants nxt rest
      | Ok false =>
          let g := yield_variants nxt rest in
          Generated (clone :: yielded g) (raised g)
      end
  end.

(** Lines 127-148 of [from_yaml], for one document: [parametrized] is the
    popped value when it is a list, and [nxt] is the record built from
    the other fields (line 140). *)
Definition from_yaml_item (nxt : ItemDefinition) (parametrized : option (list mapping))
  : generated ItemDefinition :=
  match _parse_parametrized (default [] parametrized) with
  | Raise e => Generated [] (Some e)
  | Ok l => yield_variants nxt l
  end.

End Eval.

(** An evaluator that stands in for Python's on concrete inputs.  It knows
    the expressions that are one name, and no builtins: the name of a module
    bound in the namespace evaluates to the module, an object that is
    truthy, and a name that is not bound raises [NameError]. *)
Definition eval_module_name (source : string) (namespace : list string)
  : result Py.value :=
  if bool_decide (source ∈ namespace)
  then Ok (Py.VObject ("<module '" +:+ source +:+ "'>") true)
  else Raise NameError.

(** Lines 115-121 of [from_yaml]: the [env] entries, each split at its
    first [=], as a dict from names to values. *)
Definition parse_env (env : list string) : list (string * option string) :=
  foldl (λ d env_var,
           let '(name, _, value) := Py.partition "="%char env_var in
           Py.dict_set name (Some value) d) [] env.

(** The [test_name] property. *)
Definition test_name (self : ItemDefinition) : string :=
  let test_name_prefix := case self in
  let test_name_suffix :=
    if bool_decide (item_params self ≠ [])
    then "[" +:+ Py.join "," ((λ kv, kv.1 +:+ "=" +:+ Py.str kv.2) <$> item_params self) +:+ "]"
    else "" in
  test_name_prefix +:+ test_name_suffix.

End Definitions.

(** * collect.py *)

Module Collect.

(** [SafeLineLoader.construct_mapping]: the [__line__] entry of a mapping
    node that starts at the line [start_line] (counted from 0, as the marks
    of the YAML parser are), with the keys [titles], each with the line it
    starts at. *)
Definition starting_line (start_line : Z) (titles : list (string * Z)) : Z :=
  foldl (λ line title, if decide (title.1 = "main") then (title.2 + 1)%Z else line)
    (start_line + 1)%Z titles.

End Collect.

(** * scenario.py: the mypy argument derivation *)

Module Args.

(** The part of [protocols.RunOptions] that [_adjust_mypy_args] reads and
    clones. *)
Record RunOptions := {
  args : list string;
  do_followup : bool;
}.

(** What [_adjust_mypy_args] reads of its surroundings:
    [scenario.info.disable_cache], [scenario.info.shared_cache] (with
    [str(shared_cache.cache_dir)] when it is attached; a [SharedCache] is
    a dataclass without [__bool__] or [__len__], so it is truthy),
    [default_program_runner_maker.is_daemon] and [os.name]. *)
Record Env := {
  disable_cache : bool;
  shared_cache : option string;
  is_daemon : bool;
  os_name : string;
}.

(** Lines 217-221: drop the first [--cache-dir] and what follows it. *)
Definition drop_cache_dir (a : list string) : list string :=
  if Py.mem "--cache-dir" a then
    let cd_idx := Py.index "--cache-dir" a in
    if bool_decide (cd_idx + 1 < length a)
    then Py.pop cd_idx (Py.pop cd_idx a)
    else a
  else a.

Definition _adjust_mypy_args (env : Env) (options : RunOptions) : RunOptions :=
  let a := args options in
  let a :=
    if disable_cache env || bool_decide (is_Some (shared_cache env))
    then drop_cache_dir a else a in
  if disable_cache env then
    let a :=
      if negb (is_daemon env) then
        let a := if Py.mem "--incremental" a then Py.remove "--incremental" a else a in
        if negb (Py.mem "--no-incremental" a) then a ++ ["--no-incremental"] else a
      else a in
    let a :=
      if bool_decide (os_name env = "nt")
      then a ++ ["--cache-dir"; "nul"]
      else a ++ ["--cache-dir"; "/dev/null"] in
    {| args := a; do_followup := false |}
  else
    match shared_cache env with
    | Some cache_dir =>
        let a :=
          if negb (is_daemon env) then
            let a := if negb (Py.mem "--incremental" a) then a ++ ["--incremental"] else a in
            if Py.mem "--no-incremental" a then Py.remove "--no-incremental" a else a
          else a in
        {| args := a ++ ["--cache-dir"; cache_dir]; do_followup := do_followup options |}
    | None => {| args := a; do_followup := do_followup options |}
    end.

(** The null cache directory of the platform. *)
Definition null_target (env : Env) : string :=
  if bool_decide (os_name env = "nt") then "nul" else "/dev/null".



End Args.

(** * pathlib: pure paths *)

(** A path is the list of its parts below the anchor; [[]] is the anchor
    itself ([/], or [.] for a relative path). *)
Module PathLib.

(** The parts of a path that names the file it leads to part by part: no
    part is empty, [.] or [..], and none holds a separator.  The file
    system below is keyed by such paths, and speaks for the operating
    system on such paths only: it would look up a [..] as the name of an
    entry. *)
Definition plain (p : list string) : Prop :=
  Forall (λ part, part ≠ "" ∧ part ≠ "." ∧ part ≠ ".." ∧ Py.contains "/" part = false) p.

Global Instance plain_dec p : Decision (plain p).
Proof. unfold plain. apply _. Defined.

(** [name.rfind(".")], scanning from position [i] on. *)
Fixpoint rfind_dot (name : string) (i : nat) (found : option nat) : option nat :=
  match name with
  | EmptyString => found
  | String c rest =>
      rfind_dot rest (S i) (if Ascii.eqb c "."%char then Some i else found)
  end.

(** [PurePath.suffix], on the final part: the text from the last dot on,
    unless that dot is the first or the last character. *)
Definition suffix (name : string) : string :=
  match rfind_dot name 0 None with
  | Some i =>
      if bool_decide (0 < i) && bool_decide (i < String.length name - 1)
      then String.substring i (String.length name - i) name
      else ""
  | None => ""
  end.

(** [name[:-len(old_suffix)]], or [name] when there is no suffix. *)
Definition stem (name : string) : string :=
  let old_suffix := suffix name in
  if bool_decide (old_suffix = "") then name
  else String.substring 0 (String.length name - String.length old_suffix) name.

(** [PurePath.with_suffix(new)], for a [new] that is empty or starts with a
    dot and holds no separator (as the three the source passes do): the
    suffix of the final part is replaced; a path without a final part
    raises [ValueError]. *)
Definition with_suffix (p : list string) (new : string) : result (list string) :=
  match last p with
  | None => Raise ValueError_empty_name
  | Some name => Ok (take (length p - 1) p ++ [stem name +:+ new])
  end.

(** [PurePath.parents]: the ancestors, the nearest first. *)
Fixpoint parents_go (p : list string) (n : nat) : list (list string) :=
  match n with
  | O => []
  | S k => take k p :: parents_go p k
  end.

Definition parents (p : list string) : list (list string) := parents_go p (length p).

(** [PurePath.is_relative_to(other)] *)
Definition is_relative_to (p other : list string) : bool :=
  bool_decide (other `prefix_of` p).

End PathLib.

(** * The file system *)

Module FS.

Inductive node :=
| File
| Dir.

Global Instance node_eq_dec : EqDecision node.
Proof. solve_decision. Defined.

Notation fs := (gmap (list string) node) (only parsing).

(** [q] is an entry of the directory [p]. *)
Definition is_entry_of (p q : list string) : Prop :=
  length q = S (length p) ∧ p `prefix_of` q.

Global Instance is_entry_of_dec p q : Decision (is_entry_of p q).
Proof. unfold is_entry_of. apply _. Defined.

Definition entries (m : fs) (p : list string) : list (list string) :=
  filter (is_entry_of p) (map_to_list m).*1.

(** [Path.exists()] *)
Definition exists_ (m : fs) (p : list string) : bool :=
  bool_decide (is_Some (m !! p)).

(** Some ancestor of [p] is a regular file. *)
Definition file_above (m : fs) (p : list string) : Prop :=
  Exists (λ q, m !! q = Some File) (PathLib.parents p).

(** The file system is a tree: what holds an entry is a directory. *)
Definition tree (m : fs) : Prop :=
  map_Forall (λ p _, p = [] ∨ m !! take (length p - 1) p = Some Dir) m.

Global Instance tree_dec m : Decision (tree m).
Proof. unfold tree. apply _. Defined.

(** The entries are named as a file system names them: by plain paths. *)
Definition plain_keys (m : fs) : Prop :=
  map_Forall (λ p _, PathLib.plain p) m.

Global Instance plain_keys_dec m : Decision (plain_keys m).
Proof. unfold plain_keys. apply _. Defined.

Global Instance file_above_dec m p : Decision (file_above m p).
Proof. unfold file_above. apply _. Defined.

(** [Path.unlink(missing_ok=True)]: a missing file is no error, but a
    directory in its place, or a regular file on the way to it, is. *)
Definition unlink_missing_ok (p : list string) (m : fs) : result fs :=
  match m !! p with
  | Some File => Ok (delete p m)
  | Some Dir => Raise IsADirectoryError
  | None => if bool_decide (file_above m p) then Raise NotADirectoryError else Ok m
  end.

(** [Path.iterdir()], consumed by [list(...)] *)
Definition iterdir (p : list string) (m : fs) : result (list (list string)) :=
  match m !! p with
  | Some Dir => Ok (entries m p)
  | Some File => Raise NotADirectoryError
  | None => Raise FileNotFoundError
  end.

(** [Path.rmdir()] *)
Definition rmdir (p : list string) (m : fs) : result fs :=
  match m !! p with
  | Some Dir =>
      if bool_decide (entries m p = []) then Ok (delete p m)
      else Raise OSError_not_empty
  | Some File => Raise NotADirectoryError
  | None => Raise FileNotFoundError
  end.

End FS.

(** * scenario.py: the shared cache *)

Module SharedCache.

Import FS.

(** [".".join([str(part) for part in sys.version_info[:2]])] *)
Definition version_dir (version_info : Z * Z) : string :=
  Py.join "." [Py.str (Py.VInt version_info.1); Py.str (Py.VInt version_info.2)].

(** The [for] loop of [remove_cache_for], lines 51-61. *)
Fixpoint prune (cache_dir : list string) (parents : list (list string)) (m : fs)
  : result fs :=
  match parents with
  | [] => Ok m
  | parent_dir :: rest =>
      if bool_decide (parent_dir = cache_dir)
         || negb (PathLib.is_relative_to parent_dir cache_dir)
      then Ok m
      else if negb (exists_ m parent_dir) then prune cache_dir rest m
      else
        l ← iterdir parent_dir m;
        if bool_decide (l ≠ []) then Ok m
        else m' ← rmdir parent_dir m; prune cache_dir rest m'
  end.

(** [remove_cache_for(path)], for the parts of a relative [path], on the
    cache rooted at [cache_dir]. *)
Definition remove_cache_for (cache_dir : list string) (version_info : Z * Z)
    (path : list string) (m : fs) : result fs :=
  cache_file ← PathLib.with_suffix (cache_dir ++ [version_dir version_info] ++ path) "";
  data_json_file ← PathLib.with_suffix cache_file ".data.json";
  m ← unlink_missing_ok data_json_file m;
  meta_json_file ← PathLib.with_suffix cache_file ".meta.json";
  m ← unlink_missing_ok meta_json_file m;
  prune cache_dir (PathLib.parents cache_file) m.

(** What holds of the file system when the walk of [prune] is at the
    ancestor of length [k] of [base]: it is a tree, no ancestor is a regular
    file, and the ancestors below that one are gone. *)
Definition walk_inv (base : list string) (k : nat) (m : fs) : Prop :=
  tree m
  ∧ (∀ j, m !! take j base ≠ Some File)
  ∧ (∀ j, k < j → j ≤ length base → m !! take j base = None).

(** What the walk leaves of [m]: nothing new; only empty directories among
    the ancestors below the cache root are gone; no such directory is left
    empty. *)
Definition walk_post (cache_dir base : list string) (k : nat) (m m' : fs) : Prop :=
  m' ⊆ m
  ∧ tree m'
  ∧ (∀ q, is_Some (m !! q) → m' !! q = None →
       ∃ j, length cache_dir < j ≤ k ∧ q = take j base ∧ m !! q = Some Dir
            ∧ ∀ c, m' !! (q ++ [c]) = None)
  ∧ (∀ j, length cache_dir < j ≤ length base → is_Some (m' !! take j base) →
       ∃ c, is_Some (m' !! (take j base ++ [c]))).

(** The artifact of a source path as the cache layout has it:
    [<cache_root>/<major>.<minor>/<path without its extension><ext>]. *)
Definition artifact (cache_dir : list string) (version_info : Z * Z)
    (dirs : list string) (name ext : string) : list string :=
  cache_dir ++ [version_dir version_info] ++ dirs ++ [PathLib.stem name +:+ ext].

(** [clean_shared_cache] of plugin.py, lines 79-84: one eviction for each
    known file, when a shared cache is attached. *)
Fixpoint clean_known_files (cache_dir : list string) (version_info : Z * Z)
    (known_files : list (list string)) (m : fs) : result fs :=
  match known_files with
  | [] => Ok m
  | path :: rest =>
      m' ← remove_cache_for cache_dir version_info path m;
      clean_known_files cache_dir version_info rest m'
  end.

Definition clean_shared_cache (shared_cache : option (list string))
    (version_info : Z * Z) (known_files : list (list string)) (m : fs) : result fs :=
  match shared_cache with
  | None => Ok m
  | Some cache_dir => clean_known_files cache_dir version_info known_files m
  end.

(** The file that [remove_cache_for] unlinks for the suffix [ext], when the
    joined path is [base] followed by [name]: [with_suffix] is applied
    twice. *)
Definition unlinked (base : list string) (name ext : string) : list string :=
  base ++ [PathLib.stem (PathLib.stem name) +:+ ext].

(** The file that [remove_cache_for(path)] unlinks for the suffix [ext]. *)
Definition unlinked_of (cache_dir : list string) (version_info : Z * Z)
    (path : list string) (ext : string) : list string :=
  let joined := cache_dir ++ [version_dir version_info] ++ path in
  unlinked (take (length joined - 1) joined) (default "" (last joined)) ext.

(** The cache can take the eviction of [path]: the two files to unlink are
    not directories, and no regular file stands on the way to them. *)
Definition evictable (cache_dir : list string) (version_info : Z * Z)
    (path : list string) (m : fs) : Prop :=
  m !! unlinked_of cache_dir version_info path ".data.json" ≠ Some Dir
  ∧ m !! unlinked_of cache_dir version_info path ".meta.json" ≠ Some Dir
  ∧ ¬ file_above m (cache_dir ++ [version_dir version_info] ++ path).

Global Instance evictable_dec cache_dir version_info path m :
  Decision (evictable cache_dir version_info path m).
Proof. unfold evictable. apply _. Defined.

(** What an eviction leaves of [m]: the two files are gone, nothing is
    new, the file system is still a tree, all that is gone beside the two
    files is an empty directory among the ancestors below the cache root, no
    such directory is left empty, and the cache root is as it was. *)
Definition eviction_post (cache_dir base data meta : list string) (m m' : fs) : Prop :=
  m' !! data = None
  ∧ m' !! meta = None
  ∧ m' ⊆ m
  ∧ tree m'
  ∧ (∀ q, is_Some (m !! q) → m' !! q = None →
       q = data ∨ q = meta
       ∨ (cache_dir `prefix_of` q ∧ q ≠ cache_dir ∧ q `prefix_of` base
          ∧ m !! q = Some Dir ∧ ∀ c, m' !! (q ++ [c]) = None))
  ∧ (∀ q, cache_dir `prefix_of` q → q ≠ cache_dir → q `prefix_of` base →
       is_Some (m' !! q) → ∃ c, is_Some (m' !! (q ++ [c])))
  ∧ m' !! cache_dir = m !! cache_dir.

(** The cache of the specification's example: [<root>/3.12/pkg] holds the
    two artifacts of [stem] and nothing else. *)
Definition example_cache (stem : string) : fs :=
  list_to_map
    [([], Dir); (["root"], Dir); (["root"; "3.12"], Dir);
     (["root"; "3.12"; "pkg"], Dir);
     (["root"; "3.12"; "pkg"; stem +:+ ".data.json"], File);
     (["root"; "3.12"; "pkg"; stem +:+ ".meta.json"], File)].

End SharedCache.

(** * scenario.py: the settings module and the templates *)

Module Settings.

Definition contenttypes : string := "django.contrib.contenttypes".

(** [change_installed_apps], lines 127-134: [installed_apps] is
    [self.info.installed_apps] and [values] the list the settings module
    holds; the result is the list of the constants' values. *)
Definition change_installed_apps (installed_apps : list Py.value)
    (values : list Py.value) : list string :=
  let value := installed_apps in
  let value :=
    if bool_decide (Py.VStr contenttypes ∉ value)
    then Py.VStr contenttypes :: value else value in
  omap (λ app, match app with Py.VStr s => Some s | _ => None end) value.

Definition monkeypatch_str : string :=
  "import django_stubs_ext" +:+ Py.nl +:+ "django_stubs_ext.monkeypatch()" +:+ Py.nl.

(** Lines 161-164. *)
Definition apply_monkeypatch (monkeypatch : bool) (new_settings : string) : string :=
  let new_settings := Py.replace monkeypatch_str "" new_settings in
  if monkeypatch then monkeypatch_str +:+ new_settings else new_settings.

(** The fields of [ScenarioInfo] that the settings synthesis reads. *)
Record ScenarioInfo := {
  installed_apps : list Py.value;
  custom_settings : option string;
  monkeypatch : bool;
}.

Section Synthesis.

(** [file_changers.BasicPythonAssignmentChanger(...).after_change], of
    [pytest_typing_runner]: given the change function of the
    [INSTALLED_APPS] changer when one is registered, the text of the
    settings file when it exists, and the default content, the new text and
    whether the [SECRET_KEY] finder was notified. *)
Variable after_change :
  option (list Py.value → list string) → option string → string → result (string * bool).

Definition determine_django_settings_content (info : ScenarioInfo)
    (settings_file : option string) : result string :=
  let custom :=
    match custom_settings info with
    | Some s => if bool_decide (s = "") then None else Some s
    | None => None
    end in
  let default_content := default "" custom in
  let settings_file :=
    match custom with
    | Some _ => None
    | None => settings_file
    end in
  let changer :=
    if bool_decide (is_Some custom) && Py.contains "INSTALLED_APPS" default_content
    then None else Some (change_installed_apps (installed_apps info)) in
  let default_content :=
    if Py.contains "INSTALLED_APPS" default_content then default_content
    else default_content +:+ Py.nl +:+ "INSTALLED_APPS=[]" in
  match after_change changer settings_file default_content with
  | Raise e => Raise e
  | Ok (new_settings, found_secret_key) =>
      let new_settings :=
        if (found_secret_key : bool) then new_settings
        else new_settings +:+ Py.nl +:+ "SECRET_KEY = '1'" in
      Ok (apply_monkeypatch (monkeypatch info) new_settings)
  end.


End Synthesis.


Section Templates.

(** [_rendering_env.from_string(template).render(context)] of jinja2. *)
Variable jinja_render : string → list (string * Py.value) → result string.

(** [jinja2.Environment().variable_start_string] *)
Definition variable_start_string : string := "{{".

(** [{k: v if v is not None else "None" for k, v in data.items()}] *)
Definition render_context (data : list (string * Py.value)) : list (string * Py.value) :=
  (λ kv, (kv.1, match kv.2 with Py.VNone => Py.VStr "None" | v => v end)) <$> data.

Definition render_template (template : string) (data : list (string * Py.value))
  : result string :=
  if Py.contains variable_start_string template
  then jinja_render template (render_context data)
  else Ok template.

Section Configuration.

(** [combine_ini_files], lines 23-31: the contents, dedented and stripped,
    are read into one [ConfigParser] and written out; the parser may
    raise. *)
Variable combine_ini_files : list string → result string.

Definition plugin_section : string := "[mypy.plugins.django-stubs]".

(** [set_mypy_config]: the new [scenario.info.mypy_configuration_content],
    from the one before. *)
Definition set_mypy_config (configuration_content django_settings_module : string)
    (mypy_config : string) (data : option (list (string * Py.value))) : result string :=
  additional ←
    (if bool_decide (mypy_config ≠ "")
     then render_template mypy_config (default [] data)
     else Ok "");
  content ← combine_ini_files [configuration_content; additional];
  Ok (if Py.contains plugin_section content then content
      else Py.join Py.nl
             [content; plugin_section;
              "django_settings_module = " +:+ django_settings_module]).

End Configuration.

End Templates.

(** Lines 296-302 of [add_expected_mypy_output]: a line with a colon whose
    text before the first colon does not end in [.py] gets [.py] there. *)
Definition augment_line (line : string) : string :=
  if Py.contains ":" line then
    let first := (Py.partition ":"%char line).1.1 in
    if negb (Py.endswith first ".py")
    then Py.replace_first first (first +:+ ".py") line
    else line
  else line.

(** The lines that [add_expected_mypy_output] hands to the parser of the
    notices; no line at all for an empty [out]. *)
Definition expected_lines (out : string) : option (list string) :=
  if bool_decide (out = "") then None
  else Some (augment_line <$> Py.split "010"%char out).

End Settings.

(** * Properties of the list operations *)

Section ListOps.

Implicit Types (x y : string) (l : list string).

Lemma mem_true x l : Py.mem x l = true ↔ x ∈ l.
Proof. unfold Py.mem. apply bool_decide_eq_true. Qed.

Lemma mem_false x l : Py.mem x l = false ↔ x ∉ l.
Proof. unfold Py.mem. apply bool_decide_eq_false. Qed.

Lemma count_cons x y l :
  Py.count x (y :: l) = (if decide (y = x) then 1 else 0) + Py.count x l.
Proof. done. Qed.

Lemma count_app x l k : Py.count x (l ++ k) = Py.count x l + Py.count x k.
Proof. induction l as [|y l IH]; simpl; [done|]. rewrite IH. lia. Qed.

Lemma count_zero x l : Py.count x l = 0 ↔ x ∉ l.
Proof.
  induction l as [|y l IH]; simpl.
  - split; [intros _; apply not_elem_of_nil | done].
  - rewrite not_elem_of_cons. destruct (decide (y = x)) as [->|Hne].
    + split; [lia | intros [? _]; done].
    + simpl. rewrite IH. split; [intros ?; split; [congruence | done] | intros [_ ?]; done].
Qed.

Lemma count_pos x l : 0 < Py.count x l ↔ x ∈ l.
Proof.
  destruct (decide (x ∈ l)) as [Hin|Hnin].
  - split; [done|]. intros _. destruct (Py.count x l) eqn:E; [|lia].
    apply count_zero in E. done.
  - apply count_zero in Hnin as E. rewrite E. split; [lia | done].
Qed.

Lemma count_remove x l : Py.count x (Py.remove x l) = Py.count x l - 1.
Proof.
  induction l as [|y l IH]; simpl; [done|].
  destruct (decide (y = x)) as [->|Hne]; simpl.
  - lia.
  - rewrite decide_False by done. simpl. exact IH.
Qed.

Lemma elem_of_remove_ne x y l : y ≠ x → y ∈ Py.remove x l ↔ y ∈ l.
Proof.
  intros Hne. induction l as [|z l IH]; simpl; [done|].
  destruct (decide (z = x)) as [->|Hzx].
  - rewrite elem_of_cons. split; [auto | intros [?|?]; [congruence | done]].
  - rewrite !elem_of_cons, IH. done.
Qed.

(** Once the first occurrence is removed, an element that occurred at most
    once is gone. *)
Lemma remove_once x l : Py.count x l ≤ 1 → x ∉ Py.remove x l.
Proof. intros H. apply count_zero. rewrite count_remove. lia. Qed.

Lemma index_split x l :
  x ∈ l → ∃ l1 l2, l = l1 ++ x :: l2 ∧ (x ∉ l1) ∧ Py.index x l = length l1.
Proof.
  induction l as [|y l IH]; [intros H; by apply elem_of_nil in H|].
  intros Hin. simpl. destruct (decide (y = x)) as [->|Hne].
  - exists [], l. split; [done|]. split; [apply not_elem_of_nil | done].
  - apply elem_of_cons in Hin as [->|Hin]; [done|].
    destruct (IH Hin) as (l1 & l2 & -> & Hl1 & Hidx).
    exists (y :: l1), l2. split; [done|]. split.
    + apply not_elem_of_cons. split; [congruence | done].
    + simpl. by rewrite Hidx.
Qed.

Lemma pop_middle l1 x l2 : Py.pop (length l1) (l1 ++ x :: l2) = l1 ++ l2.
Proof.
  unfold Py.pop. rewrite take_app_length.
  replace (l1 ++ x :: l2) with ((l1 ++ [x]) ++ l2) by by rewrite <- app_assoc.
  replace (S (length l1)) with (length (l1 ++ [x])) by (rewrite length_app; simpl; lia).
  by rewrite drop_app_length.
Qed.

End ListOps.

(** * The mypy argument derivation *)

Section AdjustArgs.

Import Args.

(** What [drop_cache_dir] does, by the place of the first [--cache-dir]. *)
Lemma drop_cache_dir_cases a :
  (("--cache-dir" ∉ a) ∧ drop_cache_dir a = a)
  ∨ (∃ l1, a = l1 ++ ["--cache-dir"] ∧ drop_cache_dir a = a)
  ∨ (∃ l1 v l2, a = l1 ++ "--cache-dir" :: v :: l2 ∧ ("--cache-dir" ∉ l1)
                ∧ drop_cache_dir a = l1 ++ l2).
Proof.
  unfold drop_cache_dir. destruct (Py.mem "--cache-dir" a) eqn:Hm.
  - apply mem_true in Hm. destruct (index_split _ _ Hm) as (l1 & l2 & -> & Hl1 & Hidx).
    rewrite Hidx. destruct l2 as [|v l2].
    + right; left. exists l1. split; [done|].
      rewrite bool_decide_eq_false_2; [done|]. rewrite length_app. simpl. lia.
    + right; right. exists l1, v, l2. split; [done|]. split; [done|].
      rewrite bool_decide_eq_true_2 by (rewrite length_app; simpl; lia).
      by rewrite !pop_middle.
  - apply mem_false in Hm. by left.
Qed.

Lemma drop_cache_dir_clean a :
  Py.count "--cache-dir" a ≤ 1 → last a ≠ Some "--cache-dir" →
  "--cache-dir" ∉ drop_cache_dir a.
Proof.
  intros Hc Hlast.
  destruct (drop_cache_dir_cases a) as [[Hn ->]|[(l1 & -> & _)|(l1 & v & l2 & -> & Hl1 & ->)]].
  - done.
  - by rewrite last_snoc in Hlast.
  - rewrite count_app, !count_cons, decide_True in Hc by done.
    apply not_elem_of_app. split; [done|].
    apply count_zero. destruct (decide (v = "--cache-dir")); lia.
Qed.

Lemma drop_cache_dir_count x a : Py.count x (drop_cache_dir a) ≤ Py.count x a.
Proof.
  destruct (drop_cache_dir_cases a) as [[Hn ->]|[(l1 & -> & ->)|(l1 & v & l2 & -> & Hl1 & ->)]];
    [done..|].
  rewrite !count_app, !count_cons. lia.
Qed.

(** Lines 225-228: the first [off] is removed, then [on] is appended
    unless it is there. *)
Lemma force_flag_disabled (on off : string) a :
  on ≠ off → Py.count off a ≤ 1 →
  let a2 := if Py.mem off a then Py.remove off a else a in
  let a3 := if negb (Py.mem on a2) then a2 ++ [on] else a2 in
  (on ∈ a3) ∧ (off ∉ a3) ∧ ∀ y, y ≠ on → y ∈ a3 → y ∈ a.
Proof.
  intros Hne Hc a2 a3.
  assert (off ∉ a2) as Hoff.
  { subst a2. destruct (Py.mem off a) eqn:Hm; [by apply remove_once | by apply mem_false]. }
  assert (∀ y, y ∈ a2 → y ∈ a) as Hsub.
  { subst a2. intros y. destruct (Py.mem off a); [|done].
    destruct (decide (y = off)) as [->|Hy]; [|by rewrite elem_of_remove_ne].
    intros Hin. by apply remove_once in Hc. }
  subst a3. destruct (Py.mem on a2) eqn:Hm; simpl.
  - apply mem_true in Hm. split; [done|]. split; [done|]. auto.
  - split; [apply elem_of_app; right; apply list_elem_of_singleton; done|].
    split.
    + apply not_elem_of_app. split; [done|].
      rewrite list_elem_of_singleton. congruence.
    + intros y Hy [Hin|Hin%list_elem_of_singleton]%elem_of_app; [auto | done].
Qed.

(** Lines 238-241: [on] is appended unless it is there, then the first
    [off] is removed. *)
Lemma force_flag_shared (on off : string) a :
  on ≠ off → Py.count off a ≤ 1 →
  let a2 := if negb (Py.mem on a) then a ++ [on] else a in
  let a3 := if Py.mem off a2 then Py.remove off a2 else a2 in
  (on ∈ a3) ∧ (off ∉ a3) ∧ ∀ y, y ≠ on → y ∈ a3 → y ∈ a.
Proof.
  intros Hne Hc a2 a3.
  assert (on ∈ a2) as Hon.
  { subst a2. destruct (Py.mem on a) eqn:Hm; simpl; [by apply mem_true|].
    apply elem_of_app; right. by apply list_elem_of_singleton. }
  assert (Py.count off a2 ≤ 1) as Hc2.
  { subst a2. destruct (Py.mem on a); simpl; [done|].
    rewrite count_app, count_cons, decide_False by done. simpl. lia. }
  assert (∀ y, y ≠ on → y ∈ a2 → y ∈ a) as Hsub.
  { subst a2. intros y Hy. destruct (Py.mem on a); simpl; [done|].
    intros [Hin|Hin%list_elem_of_singleton]%elem_of_app; done. }
  subst a3. destruct (Py.mem off a2) eqn:Hm.
  - split; [by apply elem_of_remove_ne|]. split; [by apply remove_once|].
    intros y Hy Hin. apply Hsub; [done|].
    destruct (decide (y = off)) as [->|Hyo]; [by apply remove_once in Hc2|].
    by apply elem_of_remove_ne in Hin.
  - apply mem_false in Hm. split; [done|]. split; [done|]. auto.
Qed.






Lemma null_target_eq env a :
  (if bool_decide (os_name env = "nt")
   then a ++ ["--cache-dir"; "nul"] else a ++ ["--cache-dir"; "/dev/null"])
  = a ++ ["--cache-dir"; null_target env].
Proof. unfold null_target. by destruct (bool_decide (os_name env = "nt")). Qed.







End AdjustArgs.

(** * Properties of the string operations *)

Section Strings.

Implicit Types (s t u : string).

Lemma str_app_cons c s t : String c s +:+ t = String c (s +:+ t).
Proof. done. Qed.

Lemma str_app_nil_l s : "" +:+ s = s.
Proof. done. Qed.

Lemma str_app_nil_r s : s +:+ "" = s.
Proof. induction s as [|c s IH]; [done|]. by rewrite str_app_cons, IH. Qed.

Lemma str_app_assoc s t u : (s +:+ t) +:+ u = s +:+ (t +:+ u).
Proof. induction s as [|c s IH]; [done|]. by rewrite !str_app_cons, IH. Qed.

Lemma str_length_app s t : String.length (s +:+ t) = String.length s + String.length t.
Proof. induction s as [|c s IH]; [done|]. rewrite str_app_cons. simpl. by rewrite IH. Qed.

End Strings.

(** * The case compiler *)

Section CaseCompiler.

Import Definitions.

Variable py_eval : string → list string → result Py.value.

Lemma parse_loop_same k acc rest :
  (∀ p, p ∈ rest → keys_of p = k) →
  parse_loop rest [(k, acc)] = Ok [(k, acc ++ (strip <$> rest))].
Proof.
  revert acc. induction rest as [|p rest IH]; intros acc Hk; simpl.
  - by rewrite app_nil_r.
  - rewrite (Hk p) by apply list_elem_of_here.
    rewrite (bool_decide_eq_true_2 (k ∈ [k])) by apply list_elem_of_here.
    simpl. rewrite decide_True by done.
    rewrite IH by (intros q Hq; apply Hk; by apply list_elem_of_further).
    by rewrite <- app_assoc.
Qed.

Lemma parse_loop_differ k acc rest :
  (∃ p, p ∈ rest ∧ keys_of p ≠ k) →
  ∃ e, parse_loop rest [(k, acc)] = Raise e.
Proof.
  revert acc. induction rest as [|p rest IH]; intros acc (q & Hq & Hne).
  - by apply elem_of_nil in Hq.
  - simpl. destruct (decide (keys_of p = k)) as [Hpk|Hpk].
    + rewrite Hpk.
      rewrite (bool_decide_eq_true_2 (k ∈ [k])) by apply list_elem_of_here.
      simpl. rewrite decide_True by done. apply IH.
      exists q. split; [|done].
      apply elem_of_cons in Hq as [->|Hq]; [done | done].
    + rewrite (bool_decide_eq_false_2 (keys_of p ∈ [k])).
      * simpl. eauto.
      * rewrite list_elem_of_singleton. done.
Qed.

(** Entries with one key string: one stripped mapping for each, in the
    order of the input. *)
Lemma parse_parametrized_same params :
  params ≠ [] →
  (∀ p q, p ∈ params → q ∈ params → keys_of p = keys_of q) →
  _parse_parametrized params = Ok (strip <$> params).
Proof.
  intros Hne Hk. destruct params as [|p rest]; [done|].
  unfold _parse_parametrized. rewrite bool_decide_eq_false_2 by done.
  simpl. rewrite parse_loop_same.
  - simpl. by rewrite app_nil_r.
  - intros q Hq. apply Hk; [by apply list_elem_of_further | apply list_elem_of_here].
Qed.

(** Two entries with different key strings: [ValueError]. *)
Lemma parse_parametrized_differ params :
  (∃ p q, p ∈ params ∧ q ∈ params ∧ keys_of p ≠ keys_of q) →
  ∃ e, _parse_parametrized params = Raise e.
Proof.
  intros (p & q & Hp & Hq & Hne). destruct params as [|p0 rest].
  { by apply elem_of_nil in Hp. }
  unfold _parse_parametrized. rewrite bool_decide_eq_false_2 by done.
  simpl.
  destruct (parse_loop_differ (keys_of p0) [strip p0] rest) as [e He].
  - apply elem_of_cons in Hp as [->|Hp]; apply elem_of_cons in Hq as [->|Hq].
    + done.
    + exists q. split; [done | congruence].
    + exists p. split; [done | congruence].
    + destruct (decide (keys_of p = keys_of p0)) as [E|E].
      * exists q. split; [done | congruence].
      * exists p. split; done.
  - exists e. by rewrite He.
Qed.

Lemma yield_variants_kept nxt l :
  _run_skip py_eval (skip nxt) = Ok false →
  yield_variants py_eval nxt l = Generated (clone_with nxt <$> l) None.
Proof.
  intros Hs. induction l as [|p l IH]; [done|].
  simpl. simpl in Hs. rewrite Hs. by rewrite IH.
Qed.

Lemma yield_variants_skipped nxt l :
  _run_skip py_eval (skip nxt) = Ok true →
  yield_variants py_eval nxt l = Generated [] None.
Proof.
  intros Hs. induction l as [|p l IH]; [done|].
  simpl. simpl in Hs. by rewrite Hs.
Qed.

Lemma yield_variants_raised nxt l e :
  _run_skip py_eval (skip nxt) = Raise e →
  yielded (yield_variants py_eval nxt l) = [].
Proof.
  intros Hs. destruct l as [|p l]; [done|].
  simpl. simpl in Hs. by rewrite Hs.
Qed.

(** The number of clones that are yielded: all of them or none, as [skip]
    is the same for each. *)
Lemma yield_variants_length nxt l :
  length (yielded (yield_variants py_eval nxt l))
  = length (filter (λ p, _run_skip py_eval (skip (clone_with nxt p)) = Ok false) l).
Proof.
  destruct (_run_skip py_eval (skip nxt)) as [[]|e] eqn:Hs.
  - rewrite yield_variants_skipped by done. simpl.
    induction l as [|p l IH]; [done|].
    rewrite filter_cons_False; [done|]. simpl. rewrite Hs. done.
  - rewrite yield_variants_kept by done. simpl. rewrite length_fmap.
    induction l as [|p l IH]; [done|].
    rewrite filter_cons_True by (simpl; by rewrite Hs). simpl. by rewrite IH.
  - rewrite (yield_variants_raised _ _ e) by done. simpl.
    induction l as [|p l IH]; [done|].
    rewrite filter_cons_False; [done|]. simpl. rewrite Hs. done.
Qed.

Lemma filter_const_length {A} (P : A → Prop) `{∀ x, Decision (P x)} (Q : Prop)
    `{Decision Q} (l : list A) :
  (∀ x, P x ↔ Q) → length (filter P l) = if bool_decide Q then length l else 0.
Proof.
  intros HPQ. induction l as [|x l IH]; simpl.
  - by destruct (bool_decide Q).
  - destruct (decide Q) as [HQ|HQ].
    + rewrite filter_cons_True by by apply HPQ.
      rewrite bool_decide_eq_true_2 in * by done. simpl. by rewrite IH.
    + rewrite filter_cons_False by by rewrite HPQ.
      rewrite bool_decide_eq_false_2 in * by done. done.
Qed.

Lemma from_yaml_item_same nxt params :
  params ≠ [] →
  (∀ p q, p ∈ params → q ∈ params → keys_of p = keys_of q) →
  from_yaml_item py_eval nxt (Some params)
  = yield_variants py_eval nxt (strip <$> params).
Proof.
  intros Hne Hk. unfold from_yaml_item. simpl.
  by rewrite parse_parametrized_same.
Qed.

(** C1, as amended: for every sequence of parametrization mappings given to
    the case compiler, if any two mappings' key sets differ (compared as
    sorted key strings), compilation raises a hard error and yields no
    variants; if the sequence is not empty and all key sets are identical,
    the number of yielded non-skipped variants equals the number of mappings
    whose skip predicate evaluates to false; for the empty sequence, and
    when [parametrized] is absent, exactly one variant is yielded when the
    skip predicate evaluates to false, the case with empty item_params, and
    none otherwise. *)
Theorem parametrized_variants nxt params :
  ((∃ p q, p ∈ params ∧ q ∈ params ∧ keys_of p ≠ keys_of q) →
   ∃ e, _parse_parametrized params = Raise e
        ∧ from_yaml_item py_eval nxt (Some params) = Generated [] (Some e))
  ∧ (params ≠ [] →
     (∀ p q, p ∈ params → q ∈ params → keys_of p = keys_of q) →
     length (yielded (from_yaml_item py_eval nxt (Some params)))
     = length (filter
         (λ p, _run_skip py_eval (skip (clone_with nxt (strip p))) = Ok false) params))
  ∧ (∀ parametrized, parametrized = None ∨ parametrized = Some [] →
     yielded (from_yaml_item py_eval nxt parametrized)
     = (if bool_decide (_run_skip py_eval (skip nxt) = Ok false)
        then [clone_with nxt []] else [])
     ∧ item_params (clone_with nxt []) = []).
Proof.
  split; [|split].
  - intros Hd. destruct (parse_parametrized_differ _ Hd) as [e He].
    exists e. split; [done|]. unfold from_yaml_item. simpl. by rewrite He.
  - intros Hne Hk. rewrite from_yaml_item_same by done.
    rewrite yield_variants_length.
    rewrite (filter_const_length _ (_run_skip py_eval (skip nxt) = Ok false)) by done.
    rewrite (filter_const_length _ (_run_skip py_eval (skip nxt) = Ok false)) by done.
    by rewrite length_fmap.
  - intros parametrized Hp. split; [|done].
    assert (from_yaml_item py_eval nxt parametrized
            = yield_variants py_eval nxt [([] : mapping)]) as ->
      by (by destruct Hp as [-> | ->]).
    destruct (_run_skip py_eval (skip nxt)) as [[]|e] eqn:Hs.
    + rewrite yield_variants_skipped by done. by rewrite bool_decide_eq_false_2.
    + rewrite yield_variants_kept by done. by rewrite bool_decide_eq_true_2.
    + rewrite (yield_variants_raised _ _ e) by done. by rewrite bool_decide_eq_false_2.
Qed.

(** C8, as amended: for every parametrization mapping (of a sequence whose
    key strings are identical, in a document that is not skipped), every key
    that starts with two underscores is stripped before the mapping becomes
    a variant's item_params: the yielded variant's item_params holds exactly
    the mapping's entries whose key does not start with two underscores, in
    input order. *)
Theorem item_params_stripped nxt params i p :
  (∀ p q, p ∈ params → q ∈ params → keys_of p = keys_of q) →
  _run_skip py_eval (skip nxt) = Ok false →
  params !! i = Some p →
  ∃ v, yielded (from_yaml_item py_eval nxt (Some params)) !! i = Some v
       ∧ item_params v = filter (λ kv, Py.startswith kv.1 "__" = false) p
       ∧ (∀ k, k ∈ (item_params v).*1 ↔ k ∈ p.*1 ∧ Py.startswith k "__" = false).
Proof.
  intros Hk Hs Hi.
  assert (params ≠ []) as Hne by (intros ->; done).
  rewrite from_yaml_item_same, yield_variants_kept by done. simpl.
  exists (clone_with nxt (strip p)). split; [|split].
  - by rewrite !list_lookup_fmap, Hi.
  - done.
  - intros k. simpl. unfold strip. rewrite !list_elem_of_fmap. split.
    + intros ([k' v] & -> & [Hp Hin]%list_elem_of_filter). simpl in *.
      split; [|done]. by exists (k', v).
    + intros [([k' v] & -> & Hin) Hp]. simpl in *. exists (k', v).
      split; [done|]. by apply list_elem_of_filter.
Qed.

(** C2, as amended: for every skip value, a boolean literal is returned
    directly; the exact strings ["True"] and ["False"] map to the booleans
    True and False; any other string is evaluated as an expression by
    [eval], with globals that bind four names ([sys], [os], [pytest] and
    [platform]) and to which [eval] adds [__builtins__], so that the
    builtins resolve as well; the truthiness of the evaluation is the skip
    decision, and an exception of the evaluation is raised on; nothing else
    of the evaluator bears on the decision: one that evaluates the other
    strings alike with these names gives the same decision for every
    skip value. *)
Theorem run_skip_cases :
  (∀ b, _run_skip py_eval (SkipBool b) = Ok b)
  ∧ _run_skip py_eval (SkipStr "True") = Ok true
  ∧ _run_skip py_eval (SkipStr "False") = Ok false
  ∧ (∀ s, s ≠ "True" → s ≠ "False" →
     _run_skip py_eval (SkipStr s)
     = match py_eval s ["sys"; "os"; "pytest"; "platform"; "__builtins__"] with
       | Ok v => Ok (Py.truthy v)
       | Raise e => Raise e
       end)
  ∧ (∀ py_eval' : string → list string → result Py.value,
     (∀ s, s ≠ "True" → s ≠ "False" →
        py_eval' s ["sys"; "os"; "pytest"; "platform"; "__builtins__"]
        = py_eval s ["sys"; "os"; "pytest"; "platform"; "__builtins__"]) →
     ∀ skip, _run_skip py_eval' skip = _run_skip py_eval skip).
Proof.
  split; [done|]. split; [done|]. split; [done|]. split.
  - intros s H1 H2. simpl. rewrite !decide_False by done.
    change (Py.eval_namespace skip_globals)
      with ["sys"; "os"; "pytest"; "platform"; "__builtins__"].
    by destruct (py_eval s _).
  - intros py_eval' Hsame [b|s]; [done|]. simpl.
    destruct (decide (s = "True")) as [|H1]; [done|].
    destruct (decide (s = "False")) as [|H2]; [done|].
    change (Py.eval_namespace skip_globals)
      with ["sys"; "os"; "pytest"; "platform"; "__builtins__"].
    by rewrite Hsame.
Qed.

End CaseCompiler.

Lemma parametrized_variants_witness :
  length (yielded (Definitions.from_yaml_item (λ _ _, Raise EvalRaised)
            (Definitions.new_item "foo" 1)
            (Some [[("a", Py.VInt 1)]; [("a", Py.VInt 2)]]))) = 2.
Proof.
  apply (parametrized_variants (λ _ _, Raise EvalRaised) (Definitions.new_item "foo" 1)
           [[("a", Py.VInt 1)]; [("a", Py.VInt 2)]]).
  - discriminate.
  - intros p q Hp Hq.
    repeat (apply elem_of_cons in Hp as [->|Hp]); [..|by apply elem_of_nil in Hp];
    repeat (apply elem_of_cons in Hq as [->|Hq]); try (by apply elem_of_nil in Hq);
    reflexivity.
Defined.

(** C1 as it is stated fails on the empty sequence: its key sets are all
    identical and none of its mappings has a skip predicate that evaluates
    to false, and yet one variant is yielded. *)
Lemma parametrized_variants_counterexample :
  let ev : string → list string → result Py.value := λ _ _, Raise EvalRaised in
  let nxt := Definitions.new_item "foo" 1 in
  (∀ p q : Definitions.mapping, p ∈ [] → q ∈ [] →
     Definitions.keys_of p = Definitions.keys_of q)
  ∧ Definitions.test_name <$> yielded (Definitions.from_yaml_item ev nxt (Some []))
    = ["foo"]
  ∧ length (yielded (Definitions.from_yaml_item ev nxt (Some [])))
    ≠ length (filter
        (λ p, Definitions._run_skip ev
                (Definitions.skip (Definitions.clone_with nxt (Definitions.strip p)))
              = Ok false) []).
Proof.
  split; [|split].
  - intros p q Hp. by apply elem_of_nil in Hp.
  - reflexivity.
  - vm_compute. discriminate.
Qed.

Lemma item_params_stripped_witness :
  ∃ v, yielded (Definitions.from_yaml_item (λ _ _, Raise EvalRaised)
                  (Definitions.new_item "foo" 1)
                  (Some [[("__x", Py.VInt 0); ("_a", Py.VInt 1); ("b", Py.VStr "x")]]))
         !! 0 = Some v
       ∧ Definitions.item_params v
         = filter (λ kv, Py.startswith kv.1 "__" = false)
             [("__x", Py.VInt 0); ("_a", Py.VInt 1); ("b", Py.VStr "x")]
       ∧ (∀ k, k ∈ (Definitions.item_params v).*1
               ↔ k ∈ [("__x", Py.VInt 0); ("_a", Py.VInt 1); ("b", Py.VStr "x")].*1
                 ∧ Py.startswith k "__" = false).
Proof.
  apply (item_params_stripped (λ _ _, Raise EvalRaised) (Definitions.new_item "foo" 1)
           [[("__x", Py.VInt 0); ("_a", Py.VInt 1); ("b", Py.VStr "x")]] 0).
  - intros p q Hp Hq.
    apply list_elem_of_singleton in Hp. apply list_elem_of_singleton in Hq.
    by rewrite Hp, Hq.
  - reflexivity.
  - reflexivity.
Defined.

(** C8 as it is stated fails on a key with one leading underscore: it is
    kept. *)
Lemma item_params_stripped_counterexample :
  Definitions.item_params <$>
    yielded (Definitions.from_yaml_item (λ _ _, Raise EvalRaised)
               (Definitions.new_item "foo" 1) (Some [[("_a", Py.VInt 1)]]))
  = [[("_a", Py.VInt 1)]]
  ∧ Py.startswith "_a" "_" = true.
Proof. split; reflexivity. Qed.

Lemma run_skip_cases_witness :
  Definitions._run_skip Definitions.eval_module_name (Definitions.SkipStr "platform")
  = Ok true.
Proof.
  destruct (run_skip_cases Definitions.eval_module_name) as (_ & _ & _ & H & _).
  rewrite H; [reflexivity | discriminate | discriminate].
Defined.

(** C2 as it is stated fails on the namespace: the expression [platform]
    evaluates, to a module, which is truthy, where a namespace of the three
    names the claim lists has it raise [NameError]; and whichever three
    names are meant, one of the four globals is not among them. *)
Lemma run_skip_cases_counterexample :
  Definitions._run_skip Definitions.eval_module_name (Definitions.SkipStr "platform")
  = Ok true
  ∧ Definitions.eval_module_name "platform" (Py.eval_namespace ["os"; "sys"; "pytest"])
    = Raise NameError
  ∧ (∀ three : list string, length three ≤ 3 →
     ∃ name, name ∈ Definitions.skip_globals
       ∧ (∃ v, Definitions.eval_module_name name
                 (Py.eval_namespace Definitions.skip_globals) = Ok v
               ∧ Py.truthy v = true)
       ∧ Definitions.eval_module_name name (Py.eval_namespace three) = Raise NameError).
Proof.
  split; [reflexivity|]. split; [reflexivity|]. intros three Hlen.
  assert (∃ name, name ∈ Definitions.skip_globals ∧ name ∉ three) as (name & Hin & Hout).
  { destruct (decide (Forall (λ name, name ∈ three) Definitions.skip_globals)) as [Hall|Hex].
    - assert (Definitions.skip_globals ⊆+ three) as Hsub.
      { apply NoDup_submseteq.
        - apply (bool_decide_unpack _). vm_compute. exact I.
        - intros x Hx. rewrite Forall_forall in Hall. by apply Hall. }
      apply submseteq_length in Hsub. simpl in Hsub. lia.
    - apply not_Forall_Exists in Hex; [|apply _].
      apply Exists_exists in Hex as (name & Hin & Hout). by exists name. }
  exists name. split; [done|]. split.
  - exists (Py.VObject ("<module '" +:+ name +:+ "'>") true). split; [|done].
    unfold Definitions.eval_module_name. rewrite bool_decide_eq_true_2; [done|].
    unfold Definitions.skip_globals in Hin.
    repeat (apply elem_of_cons in Hin as [->|Hin];
            [apply (bool_decide_unpack _); vm_compute; exact I|]).
    by apply elem_of_nil in Hin.
  - unfold Definitions.eval_module_name. rewrite bool_decide_eq_false_2; [done|].
    unfold Py.eval_namespace. destruct (bool_decide ("__builtins__" ∈ three)); [done|].
    apply not_elem_of_app. split; [done|].
    rewrite list_elem_of_singleton. intros ->.
    unfold Definitions.skip_globals in Hin.
    repeat (apply elem_of_cons in Hin as [Hin|Hin]; [discriminate|]).
    by apply elem_of_nil in Hin.
Qed.

(** * The settings module *)

Section SettingsModule.

Import Settings.

Implicit Types (s t r : string).

(** The strings of a list of values, as [isinstance(app, str)] selects
    them. *)
Lemma strings_not_in (x : string) (l : list Py.value) :
  Py.VStr x ∉ l →
  x ∉ omap (λ app, match app with Py.VStr s => Some s | _ => None end) l.
Proof.
  intros Hn Hin. apply list_elem_of_omap in Hin as (v & Hv & Hs).
  destruct v; try discriminate. by injection Hs as ->.
Qed.

(** C7, as amended: for every existing applications-list literal and every
    declared installed-apps sequence, the applications-list edit produces
    the declared applications (the strings among them, in their order),
    preceded by the contenttypes framework app when that is not declared
    (so it is then the first element and occurs once); when it is declared
    it is not added again, and it stays where it was declared; the entries
    of the existing list are not read; in particular, base list [[]] with
    declared apps [["a.app"]] yields
    [["django.contrib.contenttypes", "a.app"]]. *)
Theorem change_installed_apps_result (installed values : list Py.value) :
  let declared := omap (λ app, match app with Py.VStr s => Some s | _ => None end) installed in
  (Py.VStr contenttypes ∉ installed →
   change_installed_apps installed values = contenttypes :: declared
   ∧ (contenttypes ∉ declared))
  ∧ (Py.VStr contenttypes ∈ installed →
     change_installed_apps installed values = declared)
  ∧ (∀ values', change_installed_apps installed values'
                = change_installed_apps installed values)
  ∧ change_installed_apps [Py.VStr "a.app"] []
    = ["django.contrib.contenttypes"; "a.app"].
Proof.
  intros declared. unfold change_installed_apps. split; [|split; [|split]].
  - intros Hn. rewrite bool_decide_eq_true_2 by done. split; [done|].
    by apply strings_not_in.
  - intros Hin. by rewrite bool_decide_eq_false_2 by (intros Hn; by apply Hn).
  - done.
  - reflexivity.
Qed.

Lemma change_installed_apps_result_witness :
  change_installed_apps [Py.VStr "a.app"; Py.VInt 3] [Py.VStr "x.app"]
  = ["django.contrib.contenttypes"; "a.app"]
  ∧ ("django.contrib.contenttypes" ∉ ["a.app"]).
Proof.
  apply (change_installed_apps_result [Py.VStr "a.app"; Py.VInt 3] [Py.VStr "x.app"]).
  intros Hin.
  repeat (apply elem_of_cons in Hin as [Hin|Hin]; [discriminate|]).
  by apply elem_of_nil in Hin.
Defined.

(** C7 as it is stated fails when the contenttypes app is declared after
    another application, and on an entry of the existing list: the result
    is the declared list as it is. *)
Lemma change_installed_apps_result_counterexample :
  let result :=
    change_installed_apps [Py.VStr "a.app"; Py.VStr "django.contrib.contenttypes"]
      [Py.VStr "x.app"] in
  result = ["a.app"; "django.contrib.contenttypes"]
  ∧ head result ≠ Some "django.contrib.contenttypes"
  ∧ ("x.app" ∉ result).
Proof.
  split; [reflexivity|]. split; [discriminate|].
  intros Hin. simpl in Hin.
  repeat (apply elem_of_cons in Hin as [Hin|Hin]; [discriminate|]).
  by apply elem_of_nil in Hin.
Qed.

Lemma prefix_app s r : String.prefix s (s +:+ r) = true.
Proof.
  induction s as [|c s IH]; [by destruct r|].
  rewrite str_app_cons. simpl. by destruct (ascii_dec c c).
Qed.








End SettingsModule.

(** * The templates *)

Section TemplateRendering.

Import Settings.

Variable jinja_render : string → list (string * Py.value) → result string.

(** C10: a template that does not contain the placeholder start marker
    [{{] is returned unchanged; when the marker is present the template is
    rendered, with the same names in the same order, every parameter whose
    value is None set to the string ["None"], and every other parameter as
    it is. *)
Theorem render_template_cases (template : string) (data : list (string * Py.value)) :
  (Py.contains "{{" template = false →
   render_template jinja_render template data = Ok template)
  ∧ (Py.contains "{{" template = true →
     render_template jinja_render template data
     = jinja_render template (render_context data)
     ∧ (render_context data).*1 = data.*1
     ∧ (∀ i k, data !! i = Some (k, Py.VNone) →
               render_context data !! i = Some (k, Py.VStr "None"))
     ∧ (∀ i k v, data !! i = Some (k, v) → v ≠ Py.VNone →
                 render_context data !! i = Some (k, v))
     ∧ (∀ k v, (k, v) ∈ render_context data → v ≠ Py.VNone)).
Proof.
  unfold render_template, variable_start_string. split.
  - by intros ->.
  - intros ->. split; [done|]. unfold render_context. split; [|split; [|split]].
    + rewrite <- list_fmap_compose. by apply list_fmap_ext.
    + intros i k Hi. by rewrite list_lookup_fmap, Hi.
    + intros i k v Hi Hv. rewrite list_lookup_fmap, Hi. simpl. by destruct v.
    + intros k v ([k' v'] & [= -> ->] & Hin)%list_elem_of_fmap. simpl.
      by destruct v'.
Qed.

End TemplateRendering.

Lemma render_template_cases_witness :
  Settings.render_template (λ t ctx, Ok (t +:+ Py.join "," (Py.str <$> ctx.*2)))
    "reveal_type(1)" [("x", Py.VNone)]
  = Ok "reveal_type(1)"
  ∧ Settings.render_template (λ t ctx, Ok (t +:+ Py.join "," (Py.str <$> ctx.*2)))
      "{{ x }}" [("x", Py.VNone)]
    = Ok "{{ x }}None".
Proof.
  split.
  - apply (render_template_cases (λ t ctx, Ok (t +:+ Py.join "," (Py.str <$> ctx.*2)))
             "reveal_type(1)" [("x", Py.VNone)]).
    reflexivity.
  - destruct (render_template_cases (λ t ctx, Ok (t +:+ Py.join "," (Py.str <$> ctx.*2)))
                "{{ x }}" [("x", Py.VNone)]) as [_ H].
    apply H. reflexivity.
Defined.

(** * Paths and the file system *)

Section Paths.

Implicit Types (p q l : list string) (x c name : string).

Lemma with_suffix_snoc l name new :
  PathLib.with_suffix (l ++ [name]) new = Ok (l ++ [PathLib.stem name +:+ new]).
Proof.
  unfold PathLib.with_suffix. rewrite last_snoc, length_app. simpl.
  replace (length l + 1 - 1) with (length l) by lia.
  by rewrite take_app_length.
Qed.

Lemma stem_no_suffix name : PathLib.suffix name = "" → PathLib.stem name = name.
Proof. intros H. unfold PathLib.stem. by rewrite H. Qed.

Lemma parents_go_snoc l x k :
  k ≤ length l → PathLib.parents_go (l ++ [x]) k = PathLib.parents_go l k.
Proof.
  induction k as [|k IH]; [done|]. intros Hk. simpl.
  rewrite take_app_le by lia. rewrite IH by lia. done.
Qed.

Lemma parents_snoc l x : PathLib.parents (l ++ [x]) = l :: PathLib.parents l.
Proof.
  unfold PathLib.parents. rewrite length_app. simpl.
  replace (length l + 1) with (S (length l)) by lia. simpl.
  by rewrite take_app_length, parents_go_snoc.
Qed.

Lemma elem_of_parents_go p k q :
  q ∈ PathLib.parents_go p k ↔ ∃ j, j < k ∧ q = take j p.
Proof.
  induction k as [|k IH]; simpl.
  - rewrite elem_of_nil. split; [done | intros (j & ? & _); lia].
  - rewrite elem_of_cons, IH. split.
    + intros [->|(j & Hj & ->)]; [exists k | exists j]; split; (lia || done).
    + intros (j & Hj & ->). destruct (decide (j = k)) as [->|]; [by left|].
      right. exists j. split; [lia | done].
Qed.

Lemma prefix_of_take p q k : p `prefix_of` q → length p ≤ k → p `prefix_of` take k q.
Proof.
  intros [r ->] Hk. exists (take (k - length p) r).
  by rewrite take_app_ge by lia.
Qed.

Lemma take_prefix_length p q : p `prefix_of` q → take (length p) q = p.
Proof. intros [r ->]. by rewrite take_app_length. Qed.

End Paths.

Section FileSystem.

Import FS.

Implicit Types (m : gmap (list string) node) (p q : list string) (c : string).

Lemma tree_spec m :
  tree m ↔ ∀ q c n, m !! (q ++ [c]) = Some n → m !! q = Some Dir.
Proof.
  unfold tree. split.
  - intros Ht q c n Hq. destruct (Ht _ _ Hq) as [Hnil|Hp].
    + by destruct q.
    + rewrite length_app in Hp. simpl in Hp.
      replace (length q + 1 - 1) with (length q) in Hp by lia.
      by rewrite take_app_length in Hp.
  - intros Ht p n Hp. destruct p as [|c0 p0] using rev_ind; [by left|].
    right. rewrite length_app. simpl.
    replace (length p0 + 1 - 1) with (length p0) by lia.
    rewrite take_app_length. by eapply Ht.
Qed.

(** In a tree, all that is above an entry is there. *)
Lemma tree_take m p j : tree m → is_Some (m !! p) → is_Some (m !! take j p).
Proof.
  intros Ht. induction p as [|c p IH] using rev_ind; intros Hp.
  - by rewrite take_nil.
  - destruct (decide (j ≤ length p)) as [Hj|Hj].
    + rewrite take_app_le by done. apply IH.
      destruct Hp as [n Hn]. exists Dir. by eapply tree_spec.
    + rewrite take_ge; [done|]. rewrite length_app. simpl. lia.
Qed.

Lemma tree_delete m p :
  tree m → (∀ c, m !! (p ++ [c]) = None) → tree (delete p m).
Proof.
  rewrite !tree_spec. intros Ht Hp q c n Hq.
  apply lookup_delete_Some in Hq as [Hne Hq].
  pose proof (Ht _ _ _ Hq) as Hd.
  rewrite lookup_delete_ne; [done|]. intros ->. by rewrite Hp in Hq.
Qed.

Lemma is_entry_of_spec p q : is_entry_of p q ↔ ∃ c, q = p ++ [c].
Proof.
  unfold is_entry_of. split.
  - intros [Hlen [r ->]]. rewrite length_app in Hlen.
    destruct r as [|c [|c' r]]; simpl in Hlen; try lia. by exists c.
  - intros [c ->]. split; [rewrite length_app; simpl; lia | by exists [c]].
Qed.

Lemma elem_of_entries m p q :
  q ∈ entries m p ↔ (∃ c, q = p ++ [c]) ∧ is_Some (m !! q).
Proof.
  unfold entries. rewrite list_elem_of_filter, is_entry_of_spec.
  rewrite list_elem_of_fmap. split.
  - intros [Hc ([q' n] & -> & Hin)]. split; [done|].
    apply elem_of_map_to_list in Hin. by exists n.
  - intros [Hc [n Hn]]. split; [done|]. exists (q, n). split; [done|].
    by apply elem_of_map_to_list.
Qed.

Lemma entries_nil m p : entries m p = [] ↔ ∀ c, m !! (p ++ [c]) = None.
Proof.
  split.
  - intros He c. destruct (m !! (p ++ [c])) as [n|] eqn:Hn; [|done].
    assert (p ++ [c] ∈ entries m p) as Hin.
    { apply elem_of_entries. split; [by exists c | by exists n]. }
    rewrite He in Hin. by apply elem_of_nil in Hin.
  - intros Hn. apply elem_of_nil_inv. intros q [[c ->] [n Hq]]%elem_of_entries.
    by rewrite Hn in Hq.
Qed.

Lemma entries_cons m p :
  entries m p ≠ [] → ∃ c, is_Some (m !! (p ++ [c])).
Proof.
  intros Hne. destruct (entries m p) as [|q l] eqn:He; [done|].
  assert (q ∈ entries m p) as Hin by (rewrite He; apply list_elem_of_here).
  apply elem_of_entries in Hin as [[c ->] Hq]. by exists c.
Qed.

(** Without a directory in its place and without a regular file on the
    way, [unlink(missing_ok=True)] raises nothing and leaves no entry. *)
Lemma unlink_missing_ok_delete m p :
  m !! p ≠ Some Dir → ¬ file_above m p →
  unlink_missing_ok p m = Ok (delete p m).
Proof.
  intros Hd Hf. unfold unlink_missing_ok. destruct (m !! p) as [[]|] eqn:Hp.
  - done.
  - done.
  - rewrite bool_decide_eq_false_2 by done. by rewrite delete_id.
Qed.

End FileSystem.

(** * The shared cache *)

Section CacheEviction.

Import FS SharedCache.

Implicit Types (m : gmap (list string) node) (p q : list string) (c : string).

Variables (cache_dir base : list string).
Hypothesis Hrel : cache_dir `prefix_of` base.

Local Notation walk_inv := (SharedCache.walk_inv base).
Local Notation walk_post := (SharedCache.walk_post cache_dir base).

Lemma take_succ_base j :
  j < length base → ∃ c, take (S j) base = take j base ++ [c].
Proof.
  intros Hj. destruct (lookup_lt_is_Some_2 base j Hj) as [c Hc].
  exists c. by apply take_S_r.
Qed.

(** The walk stops with the file system as it is. *)
Lemma walk_stop k m :
  k ≤ length base → walk_inv k m → is_Some (m !! take k base) →
  (k = length cache_dir ∨ ∃ c, is_Some (m !! (take k base ++ [c]))) →
  walk_post k m m.
Proof.
  intros Hk (Ht & Hf & Hgone) Hex Hstop. split; [done|]. split; [done|]. split.
  - intros q [n Hq] Hn. by rewrite Hq in Hn.
  - intros j Hj Hsome.
    destruct (decide (k < j)) as [Hlt|Hge].
    { rewrite Hgone in Hsome by lia. by destruct Hsome. }
    destruct (decide (j = k)) as [->|Hne].
    { destruct Hstop as [->|Hc]; [lia | done]. }
    destruct (take_succ_base j) as [c Hc]; [lia|].
    exists c. rewrite <- Hc.
    replace (take (S j) base) with (take (S j) (take k base))
      by (rewrite take_take; f_equal; lia).
    by apply tree_take.
Qed.

Lemma walk_stop_root m :
  walk_inv (length cache_dir) m → walk_post (length cache_dir) m m.
Proof.
  intros (Ht & Hf & Hgone). split; [done|]. split; [done|]. split.
  - intros q [n Hq] Hn. by rewrite Hq in Hn.
  - intros j Hj Hsome. rewrite Hgone in Hsome by lia. by destruct Hsome.
Qed.

Lemma walk_post_weaken k m m' : walk_post k m m' → walk_post (S k) m m'.
Proof.
  intros (Hsub & Ht & Hrem & Hne). split; [done|]. split; [done|]. split; [|done].
  intros q Hq Hn. destruct (Hrem q Hq Hn) as (j & Hj & Hrest).
  exists j. split; [lia | done].
Qed.

(** The walk of [remove_cache_for], from the ancestor of length [k] up. *)
Lemma prune_walk k m :
  length cache_dir ≤ k → k ≤ length base → walk_inv k m →
  ∃ m', prune cache_dir (take k base :: PathLib.parents_go base k) m = Ok m'
        ∧ walk_post k m m'.
Proof.
  revert m. induction k as [|k IH]; intros m Hlo Hhi Hinv.
  - exists m. assert (cache_dir = []) as Hnil by (destruct cache_dir; [done | simpl in Hlo; lia]).
    split.
    + simpl. rewrite Hnil. by rewrite bool_decide_eq_true_2.
    + replace 0 with (length cache_dir) by by rewrite Hnil.
      apply walk_stop_root. by rewrite Hnil.
  - destruct (decide (S k = length cache_dir)) as [Heq|Hneq].
    { exists m. split.
      - simpl. rewrite Heq, take_prefix_length by done.
        by rewrite bool_decide_eq_true_2.
      - rewrite Heq. apply walk_stop_root. by rewrite <- Heq. }
    assert (length cache_dir ≤ k) as Hlo' by lia.
    assert (length (take (S k) base) = S k) as Hlen by (rewrite length_take; lia).
    assert (take (S k) base ≠ cache_dir) as Hne.
    { intros E. rewrite E in Hlen. lia. }
    assert (cache_dir `prefix_of` take (S k) base) as Hpre
      by (apply prefix_of_take; [done | lia]).
    destruct Hinv as (Ht & Hf & Hgone).
    cbn [prune]. rewrite (bool_decide_eq_false_2 _ Hne).
    unfold PathLib.is_relative_to. rewrite (bool_decide_eq_true_2 _ Hpre).
    cbn [negb orb]. unfold exists_.
    destruct (m !! take (S k) base) as [[]|] eqn:Hd.
    + by destruct (Hf (S k)).
    + rewrite bool_decide_eq_true_2 by done. cbn [negb].
      unfold iterdir. rewrite Hd. cbn [mbind result_bind].
      destruct (decide (entries m (take (S k) base) = [])) as [Hempty|Hfull].
      * rewrite bool_decide_eq_false_2 by (intros H; by apply H).
        unfold rmdir. rewrite Hd. rewrite bool_decide_eq_true_2 by done.
        cbn [mbind result_bind].
        pose proof (proj1 (entries_nil _ _) Hempty) as Hnone.
        destruct (IH (delete (take (S k) base) m)) as (m' & Hrun & Hpost); [lia | lia | |].
        { split; [by apply tree_delete|]. split.
          - intros j Hj. apply lookup_delete_Some in Hj as [_ Hj]. by destruct (Hf j).
          - intros j Hj1 Hj2. destruct (decide (j = S k)) as [->|Hjk].
            + apply lookup_delete_eq.
            + apply lookup_delete_None. right. apply Hgone; lia. }
        exists m'. split; [exact Hrun|].
        destruct Hpost as (Hsub & Ht' & Hrem & Hfull).
        assert (m' ⊆ m) as Hsub' by (etrans; [exact Hsub | apply delete_subseteq]).
        split; [done|]. split; [done|]. split; [|done].
        intros q Hq Hn. destruct (decide (q = take (S k) base)) as [->|Hqd].
        -- exists (S k). split; [lia|]. split; [done|]. split; [done|].
           intros c. eapply lookup_weaken_None; [apply Hnone | exact Hsub'].
        -- destruct (Hrem q) as (j & Hj & Hqj & Hqd' & Hch).
           { by rewrite lookup_delete_ne. }
           { done. }
           exists j. split; [lia|]. split; [done|]. split; [|done].
           by apply lookup_delete_Some in Hqd' as [_ ?].
      * rewrite bool_decide_eq_true_2 by done.
        exists m. split; [done|]. apply walk_stop; [lia | done | by rewrite Hd |].
        right. by apply entries_cons.
    + rewrite bool_decide_eq_false_2 by (intros [? ?]; done). cbn [negb].
      destruct (IH m) as (m' & Hrun & Hpost); [lia | lia | |].
      { split; [done|]. split; [done|]. intros j Hj1 Hj2.
        destruct (decide (j = S k)) as [->|Hjk]; [done | apply Hgone; lia]. }
      exists m'. split; [exact Hrun | by apply walk_post_weaken].
Qed.

End CacheEviction.

Section CacheEvictionClaim.

Import FS SharedCache.

Implicit Types (m : gmap (list string) node) (p q : list string) (c : string).

Lemma file_above_snoc m p c :
  ¬ file_above m (p ++ [c]) ↔ ∀ j, m !! take j p ≠ Some File.
Proof.
  unfold file_above. rewrite parents_snoc. split.
  - intros Hn j Hj. apply Hn.
    destruct (decide (j < length p)) as [Hlt|Hge].
    + apply Exists_cons_tl. apply Exists_exists. exists (take j p). split; [|done].
      apply elem_of_parents_go. by exists j.
    + apply Exists_cons_hd. by rewrite take_ge in Hj by lia.
  - intros Hn [Hp|Hex]%Exists_cons.
    + apply (Hn (length p)). by rewrite take_ge by lia.
    + apply Exists_exists in Hex as (q & (j & Hj & ->)%elem_of_parents_go & Hq).
      by apply (Hn j).
Qed.

Lemma tree_no_entries m p :
  tree m → m !! p ≠ Some Dir → ∀ c, m !! (p ++ [c]) = None.
Proof.
  intros Ht Hp c. destruct (m !! (p ++ [c])) as [n|] eqn:Hn; [|done].
  destruct Hp. by eapply tree_spec.
Qed.

Lemma artifact_base cache_dir version_info dirs name ext :
  artifact cache_dir version_info dirs name ext
  = (cache_dir ++ [version_dir version_info] ++ dirs) ++ [PathLib.stem name +:+ ext].
Proof. unfold artifact. by rewrite <- !app_assoc. Qed.

(** One eviction, for a joined path [base ++ [name]] below the cache
    root. *)
Lemma evict_run cache_dir version_info path base name m :
  cache_dir ++ [version_dir version_info] ++ path = base ++ [name] →
  cache_dir `prefix_of` base →
  tree m →
  m !! unlinked base name ".data.json" ≠ Some Dir →
  m !! unlinked base name ".meta.json" ≠ Some Dir →
  (∀ j, m !! take j base ≠ Some File) →
  ∃ m', remove_cache_for cache_dir version_info path m = Ok m'
        ∧ eviction_post cache_dir base (unlinked base name ".data.json")
            (unlinked base name ".meta.json") m m'.
Proof.
  intros Hjoin Hrel Ht. unfold unlinked.
  set (data := base ++ [PathLib.stem (PathLib.stem name) +:+ ".data.json"]).
  set (meta := base ++ [PathLib.stem (PathLib.stem name) +:+ ".meta.json"]).
  intros Hdata Hmeta Hnofile.
  assert (length cache_dir ≤ length base) as Hlen by by apply prefix_length.
  (* the paths *)
  unfold remove_cache_for. rewrite Hjoin.
  rewrite with_suffix_snoc, str_app_nil_r.
  unfold mbind, result_bind. cbv beta iota.
  rewrite !with_suffix_snoc. fold data meta.
  (* the two files *)
  rewrite (unlink_missing_ok_delete m data); [|done|by apply file_above_snoc].
  rewrite (unlink_missing_ok_delete (delete data m) meta); cycle 1.
  { intros H. by apply lookup_delete_Some in H as [_ H]. }
  { apply file_above_snoc. intros j H.
    apply lookup_delete_Some in H as [_ H]. by apply (Hnofile j). }
  set (m2 := delete meta (delete data m)).
  assert (m2 ⊆ m) as Hsub2.
  { subst m2. etrans; apply delete_subseteq. }
  assert (tree m2) as Ht2.
  { subst m2. apply tree_delete; [apply tree_delete; [done|]|].
    - by apply tree_no_entries.
    - intros c. apply lookup_delete_None. right. by apply tree_no_entries. }
  (* the walk *)
  rewrite parents_snoc.
  destruct (prune_walk cache_dir base Hrel (length base) m2) as (m' & Hrun & Hpost);
    [done | done | |].
  { split; [done|]. split; [|intros; lia].
    intros j H. eapply lookup_weaken in H; [|exact Hsub2]. by apply (Hnofile j). }
  rewrite firstn_all in Hrun. unfold PathLib.parents. rewrite Hrun.
  destruct Hpost as (Hsub & Ht' & Hrem & Hfull).
  exists m'. split; [done|].
  assert (m' ⊆ m) as Hsub' by (by etrans).
  assert (∀ q, is_Some (m !! q) → m' !! q = None →
          q = data ∨ q = meta
          ∨ (cache_dir `prefix_of` q ∧ q ≠ cache_dir ∧ q `prefix_of` base
             ∧ m !! q = Some Dir ∧ ∀ c, m' !! (q ++ [c]) = None)) as Hremoved.
  { intros q Hq Hn.
    destruct (decide (q = data)) as [->|Hqd]; [by left|].
    destruct (decide (q = meta)) as [->|Hqm]; [by right; left|].
    right; right.
    destruct (Hrem q) as (j & Hj & -> & Hdir & Hch).
    { subst m2. by rewrite !lookup_delete_ne. }
    { done. }
    split; [apply prefix_of_take; [done | lia]|]. split.
    { intros E. apply (f_equal length) in E. rewrite length_take in E. lia. }
    split; [exists (drop j base); by rewrite take_drop|].
    split; [|done]. eapply lookup_weaken; [exact Hdir | exact Hsub2]. }
  split; [|split; [|split; [done|split; [done|split; [done|split]]]]].
  - eapply lookup_weaken_None; [|exact Hsub]. subst m2.
    apply lookup_delete_None. right. apply lookup_delete_eq.
  - eapply lookup_weaken_None; [|exact Hsub]. subst m2. apply lookup_delete_eq.
  - intros q Hpre Hne Hqb Hq.
    assert (q = take (length q) base) as Hqt by (by rewrite take_prefix_length).
    pose proof (prefix_length _ _ Hpre) as Hl1.
    pose proof (prefix_length _ _ Hqb) as Hl2.
    rewrite Hqt in Hq |- *.
    apply Hfull; [|done]. split; [|done].
    destruct (decide (length cache_dir = length q)) as [E|E]; [|lia].
    destruct Hne. destruct Hpre as [r ->]. rewrite length_app in E.
    destruct r; [by rewrite app_nil_r | simpl in E; lia].
  - destruct (m !! cache_dir) as [n|] eqn:Hc.
    + destruct (m' !! cache_dir) as [n'|] eqn:Hc'.
      * eapply lookup_weaken in Hc'; [|exact Hsub']. congruence.
      * destruct (Hremoved cache_dir) as [E|[E|(_ & E & _)]]; [by rewrite Hc | done | | | done].
        -- apply (f_equal length) in E. subst data. rewrite length_app in E. simpl in E. lia.
        -- apply (f_equal length) in E. subst meta. rewrite length_app in E. simpl in E. lia.
    + eapply lookup_weaken_None; [exact Hc | exact Hsub'].
Qed.

(** X16. Eviction, for a source path of plain parts whose final part, its
    extension dropped, has no further suffix, on a cache of plain paths that
    is a tree in which the two artifacts are not directories and no regular
    file stands on the way to them: the eviction goes through; the
    [.data.json] and [.meta.json] artifacts at
    [<cache_root>/<major>.<minor>/<path without extension>] are gone
    afterwards, whether they were there or not; nothing is added; what else
    is gone is an empty directory among the ancestors of the artifacts below
    the cache root; no such ancestor is left empty; and the cache root is as
    it was. *)
Theorem remove_cache_for_evicts cache_dir version_info dirs name m :
  PathLib.plain cache_dir → PathLib.plain (dirs ++ [name]) → plain_keys m →
  PathLib.suffix (PathLib.stem name) = "" →
  tree m →
  m !! artifact cache_dir version_info dirs name ".data.json" ≠ Some Dir →
  m !! artifact cache_dir version_info dirs name ".meta.json" ≠ Some Dir →
  ¬ file_above m (artifact cache_dir version_info dirs name ".data.json") →
  ∃ m', remove_cache_for cache_dir version_info (dirs ++ [name]) m = Ok m'
    ∧ m' !! artifact cache_dir version_info dirs name ".data.json" = None
    ∧ m' !! artifact cache_dir version_info dirs name ".meta.json" = None
    ∧ m' ⊆ m
    ∧ (∀ q, is_Some (m !! q) → m' !! q = None →
         q = artifact cache_dir version_info dirs name ".data.json"
         ∨ q = artifact cache_dir version_info dirs name ".meta.json"
         ∨ (cache_dir `prefix_of` q ∧ q ≠ cache_dir
            ∧ q `prefix_of` cache_dir ++ [version_dir version_info] ++ dirs
            ∧ m !! q = Some Dir ∧ ∀ c, m' !! (q ++ [c]) = None))
    ∧ (∀ q, cache_dir `prefix_of` q → q ≠ cache_dir →
         q `prefix_of` cache_dir ++ [version_dir version_info] ++ dirs →
         is_Some (m' !! q) → ∃ c, is_Some (m' !! (q ++ [c])))
    ∧ m' !! cache_dir = m !! cache_dir.
Proof.
  intros _ _ _ Hsuf Ht. rewrite !artifact_base.
  set (base := cache_dir ++ [version_dir version_info] ++ dirs).
  intros Hdata Hmeta Hfile.
  destruct (evict_run cache_dir version_info (dirs ++ [name]) base name m)
    as (m' & Hrun & H1 & H2 & H3 & _ & H5 & H6 & H7).
  - subst base. by rewrite <- !app_assoc.
  - by eexists.
  - done.
  - unfold unlinked. by rewrite (stem_no_suffix _ Hsuf).
  - unfold unlinked. by rewrite (stem_no_suffix _ Hsuf).
  - by apply (file_above_snoc m base (PathLib.stem name +:+ ".data.json")).
  - unfold unlinked in *. rewrite (stem_no_suffix _ Hsuf) in *.
    exists m'. done.
Qed.

End CacheEvictionClaim.

Lemma remove_cache_for_evicts_witness :
  ∃ m', SharedCache.remove_cache_for ["root"] (3, 12)%Z ["pkg"; "mod.py"]
          (SharedCache.example_cache "mod") = Ok m'
        ∧ m' !! ["root"; "3.12"; "pkg"; "mod.data.json"] = None
        ∧ m' !! ["root"; "3.12"; "pkg"; "mod.meta.json"] = None
        ∧ m' !! ["root"] = Some FS.Dir.
Proof.
  destruct (remove_cache_for_evicts ["root"] (3, 12)%Z ["pkg"] "mod.py"
              (SharedCache.example_cache "mod"))
    as (m' & Hrun & Hdata & Hmeta & _ & _ & _ & Hroot).
  - apply (bool_decide_unpack _). vm_compute. exact I.
  - apply (bool_decide_unpack _). vm_compute. exact I.
  - apply (bool_decide_unpack _). vm_compute. exact I.
  - vm_compute. reflexivity.
  - apply (bool_decide_unpack _). vm_compute. exact I.
  - vm_compute. discriminate.
  - vm_compute. discriminate.
  - apply (bool_decide_unpack _). vm_compute. exact I.
  - exists m'. split; [exact Hrun|]. split; [exact Hdata|]. split; [exact Hmeta|].
    rewrite Hroot. vm_compute. reflexivity.
Defined.

(** The example of the specification: the two artifacts of [pkg/mod] go,
    and with them the directories [pkg] and [3.12] that they leave empty;
    the cache root stays. *)
Example evict_pkg_mod :
  SharedCache.remove_cache_for ["root"] (3, 12)%Z ["pkg"; "mod.py"]
    (SharedCache.example_cache "mod")
  = Ok (list_to_map [([], FS.Dir); (["root"], FS.Dir)]).
Proof. vm_compute. reflexivity. Qed.

(** C5, at the source path [pkg/mod.test.py], whose final part has a
    second suffix.  The artifacts of the path are
    [<root>/3.12/pkg/mod.test.data.json] and [mod.test.meta.json]; the
    second [with_suffix] replaces the suffix that the first one left, so
    the eviction unlinks [pkg/mod.data.json] and [pkg/mod.meta.json]
    instead: on a cache that holds the artifacts of the path it removes
    nothing, and on a cache that holds the artifacts of [pkg/mod.py] it
    removes those, and the directories they leave empty. *)
Theorem remove_cache_for_second_suffix :
  SharedCache.artifact ["root"] (3, 12)%Z ["pkg"] "mod.test.py" ".data.json"
  = ["root"; "3.12"; "pkg"; "mod.test.data.json"]
  ∧ SharedCache.artifact ["root"] (3, 12)%Z ["pkg"] "mod.test.py" ".meta.json"
    = ["root"; "3.12"; "pkg"; "mod.test.meta.json"]
  ∧ SharedCache.unlinked_of ["root"] (3, 12)%Z ["pkg"; "mod.test.py"] ".data.json"
    = ["root"; "3.12"; "pkg"; "mod.data.json"]
  ∧ SharedCache.unlinked_of ["root"] (3, 12)%Z ["pkg"; "mod.test.py"] ".meta.json"
    = ["root"; "3.12"; "pkg"; "mod.meta.json"]
  ∧ SharedCache.example_cache "mod.test" !! ["root"; "3.12"; "pkg"; "mod.test.data.json"]
    = Some FS.File
  ∧ SharedCache.example_cache "mod.test" !! ["root"; "3.12"; "pkg"; "mod.test.meta.json"]
    = Some FS.File
  ∧ SharedCache.remove_cache_for ["root"] (3, 12)%Z ["pkg"; "mod.test.py"]
      (SharedCache.example_cache "mod.test")
    = Ok (SharedCache.example_cache "mod.test")
  ∧ SharedCache.remove_cache_for ["root"] (3, 12)%Z ["pkg"; "mod.test.py"]
      (SharedCache.example_cache "mod")
    = Ok (list_to_map [([], FS.Dir); (["root"], FS.Dir)]).
Proof. repeat split; vm_compute; reflexivity. Qed.

(** * The expected output, the environment and the configuration *)

Section TextTransforms.

Import Settings.

Implicit Types (s t r first rest line : string) (c sep : ascii).

Lemma prefix_nil s : String.prefix "" s = true.
Proof. by destruct s. Qed.

Lemma contains_app_mid sub s t : Py.contains sub (s +:+ sub +:+ t) = true.
Proof.
  induction s as [|c s IH].
  - rewrite str_app_nil_l. destruct sub as [|c sub]; [by destruct t|].
    change (String.prefix (String c sub) (String c sub +:+ t)
            || Py.contains (String c sub) (sub +:+ t) = true).
    by rewrite prefix_app.
  - rewrite str_app_cons.
    change (String.prefix sub (String c (s +:+ sub +:+ t))
            || Py.contains sub (s +:+ sub +:+ t) = true).
    rewrite IH. apply orb_true_r.
Qed.

Lemma contains_app_r sub s t : Py.contains sub t = true → Py.contains sub (s +:+ t) = true.
Proof.
  intros Ht. induction s as [|c s IH]; [done|].
  rewrite str_app_cons.
  change (String.prefix sub (String c (s +:+ t)) || Py.contains sub (s +:+ t) = true).
  rewrite IH. apply orb_true_r.
Qed.

(** [c in s] for a character: at the head or behind it. *)
Lemma contains_char_cons c a s :
  Py.contains (String c "") (String a s)
  = bool_decide (c = a) || Py.contains (String c "") s.
Proof.
  change (Py.contains (String c "") (String a s))
    with (String.prefix (String c "") (String a s) || Py.contains (String c "") s).
  f_equal. simpl. destruct (ascii_dec c a) as [->|Hne].
  - rewrite prefix_nil. by rewrite bool_decide_eq_true_2.
  - by rewrite bool_decide_eq_false_2.
Qed.

Lemma contains_char_nil c : Py.contains (String c "") "" = false.
Proof. done. Qed.

Lemma contains_char_app c s t :
  Py.contains (String c "") (s +:+ t)
  = Py.contains (String c "") s || Py.contains (String c "") t.
Proof.
  induction s as [|a s IH]; [done|].
  rewrite str_app_cons, !contains_char_cons, IH. by rewrite orb_assoc.
Qed.

Lemma eqb_char c a : Ascii.eqb a c = bool_decide (c = a).
Proof.
  destruct (Ascii.eqb_spec a c) as [->|Hne].
  - by rewrite bool_decide_eq_true_2.
  - rewrite bool_decide_eq_false_2; [done | congruence].
Qed.

(** [partition] splits at the first separator. *)
Lemma partition_app sep first rest :
  Py.contains (String sep "") first = false →
  Py.partition sep (first +:+ String sep rest) = (first, String sep "", rest).
Proof.
  induction first as [|a first IH]; intros Hn.
  - rewrite str_app_nil_l. simpl. by rewrite Ascii.eqb_refl.
  - rewrite contains_char_cons in Hn. apply orb_false_iff in Hn as [Ha Hn].
    rewrite str_app_cons. simpl. rewrite eqb_char, Ha. by rewrite IH.
Qed.

Lemma partition_absent sep s :
  Py.contains (String sep "") s = false → Py.partition sep s = (s, "", "").
Proof.
  induction s as [|a s IH]; intros Hn; [done|].
  rewrite contains_char_cons in Hn. apply orb_false_iff in Hn as [Ha Hn].
  simpl. rewrite eqb_char, Ha. by rewrite IH.
Qed.

(** A string with the separator, split at the first one. *)
Lemma contains_char_split sep s :
  Py.contains (String sep "") s = true →
  ∃ first rest, s = first +:+ String sep rest
                ∧ Py.contains (String sep "") first = false.
Proof.
  induction s as [|a s IH]; intros Hc; [done|].
  rewrite contains_char_cons in Hc. destruct (decide (sep = a)) as [->|Hne].
  - by exists "", s.
  - rewrite bool_decide_eq_false_2 in Hc by done. simpl in Hc.
    destruct (IH Hc) as (first & rest & -> & Hf).
    exists (String a first), rest. split; [done|].
    rewrite contains_char_cons, Hf. by rewrite bool_decide_eq_false_2.
Qed.

Lemma drop_s_app s t : Py.drop_s (String.length s) (s +:+ t) = t.
Proof. induction s as [|c s IH]; [by destruct t | done]. Qed.

Lemma replace_first_prefix old new s :
  String.prefix old s = true →
  Py.replace_first old new s = new +:+ Py.drop_s (String.length old) s.
Proof.
  intros H. destruct s as [|c s].
  - change (Py.replace_first old new "")
      with (if String.prefix old "" then new +:+ Py.drop_s (String.length old) "" else "").
    by rewrite H.
  - change (Py.replace_first old new (String c s))
      with (if String.prefix old (String c s)
            then new +:+ Py.drop_s (String.length old) (String c s)
            else String c (Py.replace_first old new s)).
    by rewrite H.
Qed.

Lemma replace_first_head old new t :
  Py.replace_first old new (old +:+ t) = new +:+ t.
Proof. by rewrite replace_first_prefix, drop_s_app by apply prefix_app. Qed.

Lemma endswith_app s suf : Py.endswith (s +:+ suf) suf = true.
Proof.
  unfold Py.endswith. rewrite str_length_app.
  replace (String.length s + String.length suf - String.length suf)
    with (String.length s) by lia.
  rewrite drop_s_app. apply String.eqb_refl.
Qed.

End TextTransforms.

Section ExpectedOutput.

Import Settings.

Implicit Types (first rest line : string).

Lemma augment_line_none line :
  Py.contains ":" line = false → augment_line line = line.
Proof. unfold augment_line. by intros ->. Qed.

Lemma augment_line_keep first rest :
  Py.contains ":" first = false → Py.endswith first ".py" = true →
  augment_line (first +:+ ":" +:+ rest) = first +:+ ":" +:+ rest.
Proof.
  intros Hf Hpy. unfold augment_line. rewrite contains_app_mid.
  change (":" +:+ rest) with (String ":" rest).
  rewrite partition_app by done. cbn [fst]. by rewrite Hpy.
Qed.

Lemma augment_line_add first rest :
  Py.contains ":" first = false → Py.endswith first ".py" = false →
  augment_line (first +:+ ":" +:+ rest) = first +:+ ".py:" +:+ rest.
Proof.
  intros Hf Hpy. unfold augment_line. rewrite contains_app_mid.
  change (":" +:+ rest) with (String ":" rest).
  rewrite partition_app by done. cbn [fst]. rewrite Hpy. cbn [negb].
  rewrite replace_first_head, str_app_assoc. done.
Qed.

(** X1. A line without a colon is kept; a line whose text before the
    first colon ends in [.py] is kept; any other line gets [.py] before its
    first colon, and nothing else changes. *)
Theorem augment_line_cases :
  (∀ line, Py.contains ":" line = false → augment_line line = line)
  ∧ (∀ first rest, Py.contains ":" first = false →
       Py.endswith first ".py" = true →
       augment_line (first +:+ ":" +:+ rest) = first +:+ ":" +:+ rest)
  ∧ (∀ first rest, Py.contains ":" first = false →
       Py.endswith first ".py" = false →
       augment_line (first +:+ ":" +:+ rest) = first +:+ ".py:" +:+ rest).
Proof.
  split; [exact augment_line_none|].
  split; [exact augment_line_keep | exact augment_line_add].
Qed.

Lemma augment_line_cases_witness :
  augment_line "main:5: error: bad" = "main.py:5: error: bad"
  ∧ augment_line "main.py:5: error: bad" = "main.py:5: error: bad".
Proof.
  destruct augment_line_cases as (_ & Hkeep & Hadd). split.
  - apply (Hadd "main" "5: error: bad"); reflexivity.
  - apply (Hkeep "main.py" "5: error: bad"); reflexivity.
Defined.

(** X2. Adding the extension is idempotent: a line that went through
    [augment_line] is not changed by it again. *)
Theorem augment_line_idempotent line :
  augment_line (augment_line line) = augment_line line.
Proof.
  destruct (Py.contains ":" line) eqn:Hc.
  - destruct (contains_char_split _ _ Hc) as (first & rest & -> & Hf).
    change (String ":" rest) with (":" +:+ rest).
    destruct (Py.endswith first ".py") eqn:Hpy.
    + rewrite (augment_line_keep first rest Hf Hpy).
      exact (augment_line_keep first rest Hf Hpy).
    + rewrite (augment_line_add first rest Hf Hpy).
      change (first +:+ ".py:" +:+ rest) with (first +:+ ".py" +:+ ":" +:+ rest).
      rewrite <- str_app_assoc. apply augment_line_keep.
      * rewrite contains_char_app, Hf. reflexivity.
      * apply endswith_app.
  - rewrite (augment_line_none line Hc). exact (augment_line_none line Hc).
Qed.

End ExpectedOutput.

Section Environment.

Import Definitions.

Lemma dict_get_set_eq {V} k (v : V) d : Py.dict_get k (Py.dict_set k v d) = Some v.
Proof.
  induction d as [|[k' v'] d IH]; simpl.
  - by rewrite decide_True.
  - destruct (decide (k' = k)) as [->|Hne]; simpl.
    + by rewrite decide_True.
    + by rewrite decide_False.
Qed.

Lemma dict_get_set_ne {V} k k' (v : V) d :
  k' ≠ k → Py.dict_get k' (Py.dict_set k v d) = Py.dict_get k' d.
Proof.
  intros Hne. induction d as [|[k0 v0] d IH]; simpl.
  - by rewrite decide_False.
  - destruct (decide (k0 = k)) as [->|Hk0]; simpl.
    + by rewrite !decide_False.
    + destruct (decide (k0 = k')); [done | exact IH].
Qed.

Lemma parse_env_snoc env e :
  parse_env (env ++ [e])
  = Py.dict_set (Py.partition "=" e).1.1 (Some (Py.partition "=" e).2) (parse_env env).
Proof.
  unfold parse_env. rewrite foldl_snoc.
  by destruct (Py.partition "=" e) as [[name found] value].
Qed.

(** X3. An [env] entry is split at its first [=]: [NAME=value] sets
    [NAME] to [value], whatever [=] the value holds; an entry without [=]
    sets its whole text to the empty value; and of several entries for one
    name the last one wins. *)
Theorem parse_env_entry (before after : list string) (name value : string) :
  Py.contains "=" name = false →
  (∀ e, e ∈ after → (Py.partition "=" e).1.1 ≠ name) →
  Py.dict_get name (parse_env (before ++ [name +:+ "=" +:+ value] ++ after))
  = Some (Some value)
  ∧ Py.dict_get name (parse_env (before ++ [name] ++ after)) = Some (Some "").
Proof.
  intros Hn. induction after as [|e after IH] using rev_ind; intros Hafter.
  - rewrite !app_nil_r, !parse_env_snoc.
    change ("=" +:+ value) with (String "=" value).
    rewrite partition_app, partition_absent by done. simpl.
    by rewrite !dict_get_set_eq.
  - rewrite !app_assoc, !parse_env_snoc, <- !app_assoc.
    rewrite !dict_get_set_ne.
    + apply IH. intros e' He'. apply Hafter. apply elem_of_app. by left.
    + intros E. eapply Hafter; [|by symmetry]. apply elem_of_app. right.
      apply list_elem_of_here.
    + intros E. eapply Hafter; [|by symmetry]. apply elem_of_app. right.
      apply list_elem_of_here.
Qed.

Lemma parse_env_entry_witness :
  Py.dict_get "DJANGO" (parse_env (["A=1"; "DJANGO=0"] ++ ["DJANGO=a=b"] ++ ["B"]))
  = Some (Some "a=b")
  ∧ Py.dict_get "DJANGO" (parse_env (["A=1"; "DJANGO=0"] ++ ["DJANGO"] ++ ["B"]))
    = Some (Some "").
Proof.
  apply (parse_env_entry ["A=1"; "DJANGO=0"] ["B"] "DJANGO" "a=b").
  - reflexivity.
  - intros e He. apply list_elem_of_singleton in He as ->. vm_compute. discriminate.
Defined.

End Environment.

Section Configuration.

Import Settings.

Variable jinja_render : string → list (string * Py.value) → result string.
Variable combine_ini_files : list string → result string.

(** X4. When [set_mypy_config] goes through, the new configuration holds
    the [[mypy.plugins.django-stubs]] section: the combined text as it is
    when that holds the section, and otherwise the combined text followed
    by the section and the [django_settings_module] line; without a
    [mypy_config] no template is rendered. *)
Theorem set_mypy_config_section content module_name mypy_config data c :
  set_mypy_config jinja_render combine_ini_files content module_name mypy_config data
  = Ok c →
  Py.contains plugin_section c = true
  ∧ ∃ additional combined,
      combine_ini_files [content; additional] = Ok combined
      ∧ (mypy_config = "" → additional = "")
      ∧ (mypy_config ≠ "" →
         render_template jinja_render mypy_config (default [] data) = Ok additional)
      ∧ c = (if Py.contains plugin_section combined then combined
             else combined +:+ Py.nl +:+ plugin_section +:+ Py.nl
                  +:+ "django_settings_module = " +:+ module_name).
Proof.
  unfold set_mypy_config, mbind, result_bind.
  destruct (if bool_decide (mypy_config ≠ "") then _ else _) as [additional|e] eqn:Ha;
    [|done].
  destruct (combine_ini_files [content; additional]) as [combined|e] eqn:Hc; [|done].
  intros [= <-]. split.
  - destruct (Py.contains plugin_section combined) eqn:Hs; [done|].
    change (Py.join Py.nl [combined; plugin_section;
                           "django_settings_module = " +:+ module_name])
      with (combined +:+ Py.nl +:+ plugin_section +:+ Py.nl
            +:+ "django_settings_module = " +:+ module_name).
    rewrite <- (str_app_assoc combined Py.nl). apply contains_app_mid.
  - exists additional, combined. split; [done|]. split; [|split; [|done]].
    + intros ->. rewrite bool_decide_eq_false_2 in Ha by (intros H; by apply H).
      by injection Ha.
    + intros Hne. by rewrite bool_decide_eq_true_2 in Ha.
Qed.

End Configuration.

Lemma set_mypy_config_section_witness :
  Py.contains Settings.plugin_section
    ("[mypy]" +:+ Py.nl +:+ "[mypy.plugins.django-stubs]" +:+ Py.nl
     +:+ "django_settings_module = mysettings") = true.
Proof.
  apply (set_mypy_config_section (λ t _, Ok t) (λ l, Ok (Py.join "" l))
           "[mypy]" "mysettings" "" None).
  reflexivity.
Defined.

Section Synthesis.

Import Settings.

(** X5. The settings synthesis hands the changer a default content that
    declares [INSTALLED_APPS], whatever the case; with custom settings the
    settings file on disk is not read; and when the custom settings declare
    [INSTALLED_APPS] themselves, no changer of that variable is registered
    and the default content is the custom text as it is. *)
Theorem settings_default_content
    (after_change after_change' :
       option (list Py.value → list string) → option string → string
       → result (string * bool))
    (info : ScenarioInfo) (settings_file : option string) :
  ((∀ changer file content, Py.contains "INSTALLED_APPS" content = true →
      after_change changer file content = after_change' changer file content) →
   determine_django_settings_content after_change info settings_file
   = determine_django_settings_content after_change' info settings_file)
  ∧ (∀ s, custom_settings info = Some s → s ≠ "" →
       determine_django_settings_content after_change info settings_file
       = determine_django_settings_content after_change info None)
  ∧ (∀ s, custom_settings info = Some s → Py.contains "INSTALLED_APPS" s = true →
       determine_django_settings_content after_change info settings_file
       = match after_change None None s with
         | Raise e => Raise e
         | Ok (new_settings, found) =>
             Ok (apply_monkeypatch (monkeypatch info)
                   (if found then new_settings
                    else new_settings +:+ Py.nl +:+ "SECRET_KEY = '1'"))
         end).
Proof.
  unfold determine_django_settings_content. split; [|split].
  - intros Hsame. rewrite Hsame; [done|].
    set (content := default "" _).
    destruct (Py.contains "INSTALLED_APPS" content) eqn:Hc; [done|].
    apply contains_app_r. reflexivity.
  - intros s -> Hne. by rewrite (bool_decide_eq_false_2 (s = "") Hne).
  - intros s -> Hc.
    assert (s ≠ "") as Hne by (intros ->; done).
    rewrite (bool_decide_eq_false_2 (s = "") Hne). simpl.
    rewrite Hc. simpl. done.
Qed.

End Synthesis.

Lemma settings_default_content_witness :
  Settings.determine_django_settings_content (λ _ _ content, Ok (content, true))
    {| Settings.installed_apps := []; Settings.custom_settings := Some "INSTALLED_APPS = []";
       Settings.monkeypatch := false |} (Some "DEBUG = True")
  = Ok "INSTALLED_APPS = []".
Proof.
  destruct (settings_default_content (λ _ _ content, Ok (content, true))
              (λ _ _ content, Ok (content, true))
              {| Settings.installed_apps := []; Settings.custom_settings := Some "INSTALLED_APPS = []";
                 Settings.monkeypatch := false |} (Some "DEBUG = True")) as (_ & _ & H).
  rewrite (H "INSTALLED_APPS = []"); reflexivity.
Defined.

Section AdjustTwice.

Import Args.

Lemma index_first x (l1 l2 : list string) :
  x ∉ l1 → Py.index x (l1 ++ x :: l2) = length l1.
Proof.
  induction l1 as [|y l1 IH]; intros Hn; simpl.
  - by rewrite decide_True.
  - apply not_elem_of_cons in Hn as [Hne Hn].
    rewrite decide_False by congruence. by rewrite IH.
Qed.

Lemma drop_cache_dir_first l1 v l2 :
  "--cache-dir" ∉ l1 →
  drop_cache_dir (l1 ++ "--cache-dir" :: v :: l2) = l1 ++ l2.
Proof.
  intros Hn. unfold drop_cache_dir.
  rewrite (proj2 (mem_true _ _)) by (apply elem_of_app; right; apply list_elem_of_here).
  rewrite index_first by done.
  rewrite bool_decide_eq_true_2 by (rewrite length_app; simpl; lia).
  by rewrite !pop_middle.
Qed.

Lemma flags_disabled_fix (on off : string) B :
  on ∈ B → off ∉ B →
  (if negb (Py.mem on (if Py.mem off B then Py.remove off B else B))
   then (if Py.mem off B then Py.remove off B else B) ++ [on]
   else (if Py.mem off B then Py.remove off B else B)) = B.
Proof.
  intros Hon Hoff. rewrite (proj2 (mem_false off B) Hoff).
  by rewrite (proj2 (mem_true on B) Hon).
Qed.

Lemma flags_shared_fix (on off : string) B :
  on ∈ B → off ∉ B →
  (if Py.mem off (if negb (Py.mem on B) then B ++ [on] else B)
   then Py.remove off (if negb (Py.mem on B) then B ++ [on] else B)
   else (if negb (Py.mem on B) then B ++ [on] else B)) = B.
Proof.
  intros Hon Hoff. rewrite (proj2 (mem_true on B) Hon). simpl.
  by rewrite (proj2 (mem_false off B) Hoff).
Qed.

(** X6. The argument derivation is idempotent on argument lists that hold
    [--cache-dir] at most once and not as the last element, and each of the
    two incremental flags at most once: deriving the arguments of derived
    options changes nothing, in each cache mode and with or without a
    daemon. *)
Theorem adjust_mypy_args_idempotent env options :
  Py.count "--cache-dir" (args options) ≤ 1 →
  last (args options) ≠ Some "--cache-dir" →
  Py.count "--incremental" (args options) ≤ 1 →
  Py.count "--no-incremental" (args options) ≤ 1 →
  _adjust_mypy_args env (_adjust_mypy_args env options)
  = _adjust_mypy_args env options.
Proof.
  intros Hcd Hlast Hinc Hnoinc.
  pose proof (drop_cache_dir_clean _ Hcd Hlast) as Hclean.
  pose proof (drop_cache_dir_count "--incremental" (args options)) as Hle1.
  pose proof (drop_cache_dir_count "--no-incremental" (args options)) as Hle2.
  destruct (force_flag_disabled "--no-incremental" "--incremental"
              (drop_cache_dir (args options))) as (Hon1 & Hoff1 & Hsub1); [done | lia |].
  destruct (force_flag_shared "--incremental" "--no-incremental"
              (drop_cache_dir (args options))) as (Hon2 & Hoff2 & Hsub2); [done | lia |].
  cbv zeta in Hon1, Hoff1, Hsub1, Hon2, Hoff2, Hsub2.
  unfold _adjust_mypy_args at 2.
  destruct (disable_cache env) eqn:Hd; cbn [orb].
  - rewrite null_target_eq.
    destruct (is_daemon env) eqn:Hdm; cbn [negb].
    + unfold _adjust_mypy_args. rewrite Hd, Hdm. cbn [orb negb args do_followup].
      rewrite !null_target_eq.
      rewrite drop_cache_dir_first by done. by rewrite app_nil_r.
    + unfold _adjust_mypy_args. rewrite Hd, Hdm. cbn [orb negb args do_followup].
      rewrite !null_target_eq.
      rewrite drop_cache_dir_first by (intros Hin; by apply Hclean, Hsub1).
      rewrite app_nil_r. by rewrite flags_disabled_fix.
  - destruct (shared_cache env) as [cache_dir|] eqn:Hs.
    + rewrite bool_decide_eq_true_2 by done.
      destruct (is_daemon env) eqn:Hdm; cbn [negb].
      * unfold _adjust_mypy_args. rewrite Hd, Hs, Hdm. cbn [orb negb args do_followup].
        rewrite bool_decide_eq_true_2 by done.
        rewrite drop_cache_dir_first by done. by rewrite app_nil_r.
      * unfold _adjust_mypy_args. rewrite Hd, Hs, Hdm. cbn [orb negb args do_followup].
        rewrite bool_decide_eq_true_2 by done.
        rewrite drop_cache_dir_first by (intros Hin; by apply Hclean, Hsub2).
        rewrite app_nil_r. by rewrite flags_shared_fix.
    + rewrite bool_decide_eq_false_2 by (intros [? ?]; done).
      unfold _adjust_mypy_args. rewrite Hd, Hs. cbn [orb args do_followup].
      by rewrite bool_decide_eq_false_2 by (intros [? ?]; done).
Qed.

Lemma adjust_mypy_args_idempotent_witness :
  _adjust_mypy_args
    {| disable_cache := false; shared_cache := Some "/shared";
       is_daemon := false; os_name := "posix" |}
    (_adjust_mypy_args
       {| disable_cache := false; shared_cache := Some "/shared";
          is_daemon := false; os_name := "posix" |}
       {| args := ["--cache-dir"; "/old"; "--no-incremental"]; do_followup := true |})
  = _adjust_mypy_args
      {| disable_cache := false; shared_cache := Some "/shared";
         is_daemon := false; os_name := "posix" |}
      {| args := ["--cache-dir"; "/old"; "--no-incremental"]; do_followup := true |}.
Proof.
  apply (adjust_mypy_args_idempotent
    {| disable_cache := false; shared_cache := Some "/shared";
       is_daemon := false; os_name := "posix" |}
    {| args := ["--cache-dir"; "/old"; "--no-incremental"]; do_followup := true |}).
  - vm_compute. lia.
  - vm_compute. discriminate.
  - vm_compute. lia.
  - vm_compute. lia.
Defined.

End AdjustTwice.

Section CacheCleaning.

Import FS SharedCache.

Implicit Types (m : gmap (list string) node) (p q : list string) (c : string).

Lemma joined_split cache_dir version_info path :
  ∃ base name,
    cache_dir ++ [version_dir version_info] ++ path = base ++ [name]
    ∧ cache_dir `prefix_of` base.
Proof.
  destruct (version_dir version_info :: path) as [|name rest _] eqn:E using rev_ind.
  - done.
  - exists (cache_dir ++ rest), name. split.
    + change ([version_dir version_info] ++ path) with (version_dir version_info :: path).
      by rewrite E, app_assoc.
    + by eexists.
Qed.

Lemma unlinked_of_split cache_dir version_info path base name ext :
  cache_dir ++ [version_dir version_info] ++ path = base ++ [name] →
  unlinked_of cache_dir version_info path ext = unlinked base name ext.
Proof.
  intros E. unfold unlinked_of. cbv zeta. rewrite E, last_snoc, length_app. simpl.
  replace (length base + 1 - 1) with (length base) by lia.
  by rewrite take_app_length.
Qed.

(** One eviction on a cache that can take it. *)
Lemma evict_general cache_dir version_info path m :
  tree m → evictable cache_dir version_info path m →
  ∃ base m',
    remove_cache_for cache_dir version_info path m = Ok m'
    ∧ eviction_post cache_dir base
        (unlinked_of cache_dir version_info path ".data.json")
        (unlinked_of cache_dir version_info path ".meta.json") m m'.
Proof.
  intros Ht (Hdata & Hmeta & Hfile).
  destruct (joined_split cache_dir version_info path) as (base & name & E & Hrel).
  rewrite !(unlinked_of_split _ _ _ base name) in * by done.
  rewrite E in Hfile.
  destruct (evict_run cache_dir version_info path base name m) as (m' & Hrun & Hpost);
    [done.. | by apply (file_above_snoc m base name) |].
  by exists base, m'.
Qed.

Lemma evictable_subseteq cache_dir version_info path m m' :
  m' ⊆ m → evictable cache_dir version_info path m →
  evictable cache_dir version_info path m'.
Proof.
  intros Hsub (Hdata & Hmeta & Hfile). split; [|split].
  - intros H. apply Hdata. eapply lookup_weaken; done.
  - intros H. apply Hmeta. eapply lookup_weaken; done.
  - intros H. apply Hfile. unfold file_above in *.
    apply Exists_exists in H as (q & Hq & Hf). apply Exists_exists.
    exists q. split; [done|]. eapply lookup_weaken; done.
Qed.

(** After an eviction, the same eviction finds nothing to remove. *)
Lemma eviction_post_again cache_dir base data meta m m' m'' :
  eviction_post cache_dir base data meta m m' →
  eviction_post cache_dir base data meta m' m'' →
  m'' = m'.
Proof.
  intros (Hd1 & Hm1 & Hsub1 & Ht1 & Hrem1 & Hfull1 & Hroot1)
         (Hd2 & Hm2 & Hsub2 & Ht2 & Hrem2 & Hfull2 & Hroot2).
  assert (∀ k q, length base ≤ length q + k →
            cache_dir `prefix_of` q → q ≠ cache_dir → q `prefix_of` base →
            is_Some (m' !! q) → is_Some (m'' !! q)) as Hchain.
  { induction k as [|k IH]; intros q Hk Hpre Hne Hqb Hq.
    - destruct (m'' !! q) as [n|] eqn:Hq''; [by eexists|].
      destruct (Hfull1 q Hpre Hne Hqb Hq) as [ch Hch].
      destruct (Hrem2 q Hq Hq'') as [->|[->|(_ & _ & _ & _ & Hnone)]].
      + rewrite Hd1 in Hq. by destruct Hq.
      + rewrite Hm1 in Hq. by destruct Hq.
      + destruct (Hrem2 (q ++ [ch]) Hch (Hnone ch)) as [E|[E|(_ & _ & Hcb & _)]].
        * rewrite E, Hd1 in Hch. by destruct Hch.
        * rewrite E, Hm1 in Hch. by destruct Hch.
        * apply prefix_length in Hcb. rewrite length_app in Hcb. simpl in Hcb. lia.
    - destruct (m'' !! q) as [n|] eqn:Hq''; [by eexists|].
      destruct (Hfull1 q Hpre Hne Hqb Hq) as [ch Hch].
      destruct (Hrem2 q Hq Hq'') as [->|[->|(_ & _ & _ & _ & Hnone)]].
      + rewrite Hd1 in Hq. by destruct Hq.
      + rewrite Hm1 in Hq. by destruct Hq.
      + destruct (Hrem2 (q ++ [ch]) Hch (Hnone ch)) as [E|[E|(Hcp & Hcn & Hcb & _)]].
        * rewrite E, Hd1 in Hch. by destruct Hch.
        * rewrite E, Hm1 in Hch. by destruct Hch.
        * destruct (IH (q ++ [ch])) as [n Hn]; [|done..|].
          { rewrite length_app. simpl. lia. }
          by rewrite Hnone in Hn. }
  apply (anti_symm (⊆)); [done|].
  apply map_subseteq_spec. intros q n Hq.
  destruct (m'' !! q) as [n'|] eqn:Hq''.
  - eapply lookup_weaken in Hq''; [|exact Hsub2]. congruence.
  - destruct (Hrem2 q) as [->|[->|(Hcp & Hcn & Hcb & _)]]; [by eexists | done | | |].
    + by rewrite Hd1 in Hq.
    + by rewrite Hm1 in Hq.
    + destruct (Hchain (length base) q) as [n' Hn']; [lia | done.. | by eexists |].
      by rewrite Hq'' in Hn'.
Qed.

(** X7. Eviction is idempotent: for a cache root and a path of plain
    parts (none is [..]), on a cache of plain paths that is a tree and can
    take the eviction of the path, the eviction goes through, and evicting
    the same path again goes through and changes nothing. *)
Theorem remove_cache_for_twice cache_dir version_info path m :
  PathLib.plain cache_dir → PathLib.plain path → plain_keys m →
  tree m → evictable cache_dir version_info path m →
  ∃ m', remove_cache_for cache_dir version_info path m = Ok m'
        ∧ remove_cache_for cache_dir version_info path m' = Ok m'.
Proof.
  intros _ _ _ Ht He.
  destruct (joined_split cache_dir version_info path) as (base & name & E & Hrel).
  pose proof He as (Hdata & Hmeta & Hfile).
  rewrite !(unlinked_of_split _ _ _ base name) in * by done.
  rewrite E in Hfile.
  destruct (evict_run cache_dir version_info path base name m) as (m' & Hrun & Hpost);
    [done.. | by apply (file_above_snoc m base name) |].
  exists m'. split; [done|].
  pose proof Hpost as (Hd1 & Hm1 & Hsub1 & Ht1 & _).
  destruct (evict_run cache_dir version_info path base name m') as (m'' & Hrun' & Hpost');
    [done | done | done | by rewrite Hd1 | by rewrite Hm1 | |].
  { intros j H. eapply lookup_weaken in H; [|exact Hsub1].
    by apply (proj1 (file_above_snoc m base name) Hfile j). }
  by rewrite (eviction_post_again _ _ _ _ _ _ _ Hpost Hpost') in Hrun'.
Qed.

Lemma remove_cache_for_twice_witness :
  ∃ m', remove_cache_for ["root"] (3, 12)%Z ["pkg"; "mod.py"] (example_cache "mod") = Ok m'
        ∧ remove_cache_for ["root"] (3, 12)%Z ["pkg"; "mod.py"] m' = Ok m'.
Proof.
  apply remove_cache_for_twice.
  - apply (bool_decide_unpack _). vm_compute. exact I.
  - apply (bool_decide_unpack _). vm_compute. exact I.
  - apply (bool_decide_unpack _). vm_compute. exact I.
  - apply (bool_decide_unpack _). vm_compute. exact I.
  - apply (bool_decide_unpack _). vm_compute. exact I.
Defined.

Lemma clean_known_files_run cache_dir version_info known_files m :
  tree m →
  Forall (λ path, evictable cache_dir version_info path m) known_files →
  ∃ m', clean_known_files cache_dir version_info known_files m = Ok m'
        ∧ m' ⊆ m ∧ tree m' ∧ m' !! cache_dir = m !! cache_dir
        ∧ Forall (λ path,
            m' !! unlinked_of cache_dir version_info path ".data.json" = None
            ∧ m' !! unlinked_of cache_dir version_info path ".meta.json" = None)
            known_files.
Proof.
  revert m. induction known_files as [|path rest IH]; intros m Ht Hall.
  - exists m. by repeat split.
  - apply Forall_cons in Hall as [Hpath Hrest].
    destruct (evict_general _ _ _ _ Ht Hpath)
      as (base & m1 & Hrun & Hd & Hm & Hsub & Ht1 & _ & _ & Hroot).
    destruct (IH m1) as (m' & Hrun' & Hsub' & Ht' & Hroot' & Hgone); [done | |].
    { eapply Forall_impl; [exact Hrest|]. intros p Hp.
      by eapply evictable_subseteq. }
    exists m'. split; [|split; [|split; [|split]]].
    + simpl. by rewrite Hrun.
    + by etrans.
    + done.
    + by rewrite Hroot'.
    + apply Forall_cons. split; [|done].
      split; eapply lookup_weaken_None; done.
Qed.

(** X8. The cleaner of the shared cache: for a cache root and known files
    of plain parts (none is [..]), on a cache of plain paths that is a tree
    and can take the eviction of each known file, it raises nothing, the
    files it unlinks for each known file are gone, nothing is added, the
    cache is still a tree and the cache root is as it was; without a shared
    cache nothing is touched. *)
Theorem clean_shared_cache_run cache_dir version_info known_files m :
  PathLib.plain cache_dir → Forall PathLib.plain known_files → plain_keys m →
  tree m →
  Forall (λ path, evictable cache_dir version_info path m) known_files →
  clean_shared_cache None version_info known_files m = Ok m
  ∧ ∃ m', clean_shared_cache (Some cache_dir) version_info known_files m = Ok m'
          ∧ m' ⊆ m ∧ tree m' ∧ m' !! cache_dir = m !! cache_dir
          ∧ Forall (λ path,
              m' !! unlinked_of cache_dir version_info path ".data.json" = None
              ∧ m' !! unlinked_of cache_dir version_info path ".meta.json" = None)
              known_files.
Proof.
  intros _ _ _ Ht Hall. split; [done|]. by apply clean_known_files_run.
Qed.

Lemma clean_shared_cache_run_witness :
  ∃ m', clean_shared_cache (Some ["root"]) (3, 12)%Z
          [["pkg"; "mod.py"]; ["main.py"]; ["pkg"; "mod.py"]] (example_cache "mod")
        = Ok m'
        ∧ m' !! ["root"] = Some Dir.
Proof.
  destruct (clean_shared_cache_run ["root"] (3, 12)%Z
              [["pkg"; "mod.py"]; ["main.py"]; ["pkg"; "mod.py"]] (example_cache "mod"))
    as (_ & m' & Hrun & _ & _ & Hroot & _).
  - apply (bool_decide_unpack _). vm_compute. exact I.
  - apply (bool_decide_unpack _). vm_compute. exact I.
  - apply (bool_decide_unpack _). vm_compute. exact I.
  - apply (bool_decide_unpack _). vm_compute. exact I.
  - apply (bool_decide_unpack _). vm_compute. exact I.
  - exists m'. split; [exact Hrun|]. rewrite Hroot. vm_compute. reflexivity.
Defined.

End CacheCleaning.

(** * More on the case compiler *)

Section SortedKeys.

Lemma insert_sorted_perm x l : Py.insert_sorted x l ≡ₚ x :: l.
Proof.
  induction l as [|y l IH]; simpl; [done|].
  destruct (String.leb x y); [done|].
  rewrite IH. apply Permutation_swap.
Qed.

Lemma insert_sorted_Sorted x l :
  Sorted String.le l → Sorted String.le (Py.insert_sorted x l).
Proof.
  induction l as [|y l IH]; intros Hs; simpl.
  - by repeat constructor.
  - destruct (String.leb x y) eqn:Hxy.
    + constructor; [done|]. constructor. unfold String.le. by rewrite Hxy.
    + apply Sorted_inv in Hs as [Hs Hhd].
      assert (String.le y x) as Hyx.
      { destruct (total String.le x y) as [H|H]; [|done].
        unfold String.le in H. by rewrite Hxy in H. }
      constructor; [by apply IH|].
      destruct l as [|z l]; simpl.
      * by constructor.
      * destruct (String.leb x z); constructor; [done|].
        by apply HdRel_inv in Hhd.
Qed.

Lemma sorted_perm l : Py.sorted l ≡ₚ l.
Proof.
  induction l as [|x l IH]; simpl; [done|].
  by rewrite insert_sorted_perm, IH.
Qed.

Lemma sorted_Sorted l : Sorted String.le (Py.sorted l).
Proof.
  induction l as [|x l IH]; simpl; [constructor|].
  by apply insert_sorted_Sorted.
Qed.

(** [sorted] does not depend on the order of its argument. *)
Lemma sorted_permutation l l' : l ≡ₚ l' → Py.sorted l = Py.sorted l'.
Proof.
  intros Hp. apply (Sorted_unique String.le); [apply sorted_Sorted..|].
  by rewrite !sorted_perm.
Qed.

End SortedKeys.

Section CaseCompilerMore.

Import Definitions.

Variable py_eval : string → list string → result Py.value.

(** X9. The order of the keys within a mapping does not matter: a
    non-empty sequence whose mappings declare the same keys, in whatever
    orders, compiles to one stripped mapping for each entry, in input
    order. *)
Theorem parametrized_keys_in_any_order params :
  params ≠ [] →
  (∀ p q, p ∈ params → q ∈ params → p.*1 ≡ₚ q.*1) →
  _parse_parametrized params = Ok (strip <$> params).
Proof.
  intros Hne Hperm. apply parse_parametrized_same; [done|].
  intros p q Hp Hq. unfold keys_of. f_equal.
  apply sorted_permutation. by apply Hperm.
Qed.

Lemma parse_loop_first_mismatch k acc before p after :
  (∀ q, q ∈ before → keys_of q = k) → keys_of p ≠ k →
  parse_loop (before ++ p :: after) [(k, acc)]
  = Raise (ValueError_same_keys (Py.join ", " (Py.sorted (Py.chars k))) (keys_of p)).
Proof.
  revert acc. induction before as [|q before IH]; intros acc Hk Hp; simpl.
  - rewrite (bool_decide_eq_false_2 (keys_of p ∈ [k])); [done|].
    by rewrite list_elem_of_singleton.
  - rewrite (Hk q) by apply list_elem_of_here.
    rewrite (bool_decide_eq_true_2 (k ∈ [k])) by apply list_elem_of_here.
    simpl. rewrite decide_True by done. apply IH; [|done].
    intros q' Hq'. apply Hk. by apply list_elem_of_further.
Qed.

(** X10. The error is raised at the first entry whose key string differs
    from that of the first entry, whatever follows; its message holds the
    key string of that entry, and for the first entry the characters of its
    key string, sorted and joined with [", "]: line 28 sorts the key string
    and not the keys. *)
Theorem parametrized_first_mismatch first before p after :
  (∀ q, q ∈ before → keys_of q = keys_of first) →
  keys_of p ≠ keys_of first →
  _parse_parametrized (first :: before ++ p :: after)
  = Raise (ValueError_same_keys
             (Py.join ", " (Py.sorted (Py.chars (keys_of first)))) (keys_of p)).
Proof.
  intros Hk Hp. unfold _parse_parametrized.
  rewrite bool_decide_eq_false_2 by done. simpl.
  by rewrite parse_loop_first_mismatch.
Qed.




End CaseCompilerMore.

Lemma parametrized_keys_in_any_order_witness :
  Definitions._parse_parametrized
    [[("a", Py.VInt 1); ("b", Py.VInt 2)]; [("b", Py.VInt 3); ("a", Py.VInt 4)]]
  = Ok [[("a", Py.VInt 1); ("b", Py.VInt 2)]; [("b", Py.VInt 3); ("a", Py.VInt 4)]].
Proof.
  apply (parametrized_keys_in_any_order
           [[("a", Py.VInt 1); ("b", Py.VInt 2)]; [("b", Py.VInt 3); ("a", Py.VInt 4)]]).
  - discriminate.
  - intros p q Hp Hq.
    repeat (apply elem_of_cons in Hp as [->|Hp]); [..|by apply elem_of_nil in Hp];
    repeat (apply elem_of_cons in Hq as [->|Hq]); try (by apply elem_of_nil in Hq);
    simpl; try reflexivity; apply Permutation_swap.
Defined.

Lemma parametrized_first_mismatch_witness :
  Definitions._parse_parametrized
    ([("name", Py.VInt 1); ("app", Py.VInt 2)]
     :: [[("app", Py.VInt 3); ("name", Py.VInt 4)]]
     ++ [("name", Py.VInt 5)] :: [[("other", Py.VInt 6)]])
  = Raise (ValueError_same_keys " , ,, a, a, e, m, n, p, p" "name").
Proof.
  apply (parametrized_first_mismatch [("name", Py.VInt 1); ("app", Py.VInt 2)]
           [[("app", Py.VInt 3); ("name", Py.VInt 4)]]
           [("name", Py.VInt 5)] [[("other", Py.VInt 6)]]).
  - intros q Hq. apply list_elem_of_singleton in Hq as ->. reflexivity.
  - vm_compute. discriminate.
Defined.


Section StartingLine.

Import Collect.

Lemma starting_line_snoc start_line titles title :
  starting_line start_line (titles ++ [title])
  = if decide (title.1 = "main") then (title.2 + 1)%Z
    else starting_line start_line titles.
Proof. unfold starting_line. by rewrite foldl_snoc. Qed.

(** X12. The line of a document is that of the last key named [main],
    or that of the start of the mapping without such a key, counted from 1
    in both cases: it is at least 1 when the marks of the parser are not
    negative. *)
Theorem starting_line_cases start_line titles :
  ((∀ t, t ∈ titles → t.1 ≠ "main") →
   starting_line start_line titles = (start_line + 1)%Z)
  ∧ (∀ before line after, titles = before ++ ("main", line) :: after →
       (∀ t, t ∈ after → t.1 ≠ "main") →
       starting_line start_line titles = (line + 1)%Z)
  ∧ ((0 ≤ start_line)%Z → (∀ t, t ∈ titles → (0 ≤ t.2)%Z) →
     (1 ≤ starting_line start_line titles)%Z).
Proof.
  split; [|split].
  - induction titles as [|t titles IH] using rev_ind; intros Hno; [done|].
    rewrite starting_line_snoc, decide_False.
    + apply IH. intros t' Ht'. apply Hno. apply elem_of_app. by left.
    + apply Hno. apply elem_of_app. right. apply list_elem_of_here.
  - intros before line after -> Hno.
    induction after as [|t after IH] using rev_ind.
    + by rewrite starting_line_snoc, decide_True.
    + rewrite app_comm_cons, app_assoc, starting_line_snoc, decide_False.
      * apply IH. intros t' Ht'. apply Hno. apply elem_of_app. by left.
      * apply Hno. apply elem_of_app. right. apply list_elem_of_here.
  - intros Hs. induction titles as [|t titles IH] using rev_ind; intros Hpos.
    + unfold starting_line. simpl. lia.
    + rewrite starting_line_snoc. destruct (decide (t.1 = "main")).
      * assert (0 ≤ t.2)%Z; [|lia].
        apply Hpos. apply elem_of_app. right. apply list_elem_of_here.
      * apply IH. intros t' Ht'. apply Hpos. apply elem_of_app. by left.
Qed.

End StartingLine.

Lemma starting_line_cases_witness :
  Collect.starting_line 4 [("case", 4%Z); ("main", 6%Z); ("out", 9%Z)] = 7%Z.
Proof.
  destruct (starting_line_cases 4 [("case", 4%Z); ("main", 6%Z); ("out", 9%Z)])
    as (_ & H & _).
  apply (H [("case", 4%Z)] 6%Z [("out", 9%Z)]).
  - reflexivity.
  - intros t Ht. apply list_elem_of_singleton in Ht as ->. discriminate.
Defined.

Section DefensiveCheck.

Import Definitions.

Lemma first_differing k (rest : list mapping) :
  ¬ Forall (λ q, keys_of q = k) rest →
  ∃ before p after, rest = before ++ p :: after
                    ∧ (∀ q, q ∈ before → keys_of q = k) ∧ keys_of p ≠ k.
Proof.
  induction rest as [|q rest IH]; intros Hnot; [by destruct Hnot|].
  destruct (decide (keys_of q = k)) as [Hq|Hq].
  - destruct IH as (before & p & after & -> & Hb & Hp).
    { intros Hall. apply Hnot. by constructor. }
    exists (q :: before), p, after. split; [done|]. split; [|done].
    intros q' [->|Hq']%elem_of_cons; [done | by apply Hb].
  - exists [], q, rest. split; [done|]. split; [|done].
    by intros q' ?%elem_of_nil.
Qed.

(** X13. The second check of [_parse_parametrized], which its comment
    calls a defensive repetition that should never happen, never fires:
    the outcome is the list of stripped mappings, or the error of the first
    check. *)
Theorem parametrized_defensive_check_unreachable params :
  _parse_parametrized params ≠ Raise ValueError_defensive
  ∧ ((∃ l, _parse_parametrized params = Ok l)
     ∨ ∃ first spotted,
         _parse_parametrized params = Raise (ValueError_same_keys first spotted)).
Proof.
  assert ((∃ l, _parse_parametrized params = Ok l)
          ∨ ∃ first spotted,
              _parse_parametrized params = Raise (ValueError_same_keys first spotted))
    as Hcases.
  { destruct params as [|p0 rest]; [left; by eexists|].
    destruct (decide (Forall (λ q, keys_of q = keys_of p0) rest)) as [Hall|Hnot].
    - left. exists (strip <$> p0 :: rest). apply parse_parametrized_same; [done|].
      rewrite Forall_forall in Hall.
      intros p q [->|Hp]%elem_of_cons [->|Hq]%elem_of_cons;
        rewrite ?(Hall _ Hp), ?(Hall _ Hq); done.
    - right. destruct (first_differing _ _ Hnot) as (before & p & after & -> & Hb & Hp).
      eexists _, (keys_of p). unfold _parse_parametrized.
      rewrite bool_decide_eq_false_2 by done. simpl.
      by rewrite parse_loop_first_mismatch. }
  split; [|done].
  destruct Hcases as [[l ->]|(first & spotted & ->)]; discriminate.
Qed.

End DefensiveCheck.

Section SynthesisOutput.

Import Settings.

Variable after_change :
  option (list Py.value → list string) → option string → string → result (string * bool).





End SynthesisOutput.



Section ExpectedLines.

Import Settings.

Implicit Types (s : string) (sep c : ascii).

Lemma split_nonempty sep s : Py.split sep s ≠ [].
Proof.
  destruct s as [|c s]; simpl; [done|].
  destruct (Ascii.eqb c sep); [done|]. by destruct (Py.split sep s).
Qed.

Lemma join_cons_cons sepstr x y (l : list string) :
  Py.join sepstr (x :: y :: l) = x +:+ sepstr +:+ Py.join sepstr (y :: l).
Proof. done. Qed.

Lemma join_push c sepstr x (l : list string) :
  Py.join sepstr (String c x :: l) = String c (Py.join sepstr (x :: l)).
Proof. destruct l; [done|]. by rewrite !join_cons_cons. Qed.

(** [split] and [join] are inverse to each other on the text. *)
Lemma join_split sep s : Py.join (String sep "") (Py.split sep s) = s.
Proof.
  induction s as [|c s IH]; [done|]. simpl.
  destruct (Ascii.eqb_spec c sep) as [->|Hne].
  - destruct (Py.split sep s) as [|x l] eqn:E; [by apply split_nonempty in E|].
    rewrite join_cons_cons, IH. done.
  - destruct (Py.split sep s) as [|x l] eqn:E; [by apply split_nonempty in E|].
    by rewrite join_push, IH.
Qed.

Lemma split_pieces sep s :
  Forall (λ piece, Py.contains (String sep "") piece = false) (Py.split sep s).
Proof.
  induction s as [|c s IH]; simpl; [by repeat constructor|].
  destruct (Ascii.eqb_spec c sep) as [->|Hne].
  - by constructor.
  - destruct (Py.split sep s) as [|x l] eqn:E; [by apply split_nonempty in E|].
    apply Forall_cons in IH as [Hx Hl]. constructor; [|done].
    rewrite contains_char_cons, Hx. by rewrite bool_decide_eq_false_2 by congruence.
Qed.

(** X15. An empty expected output registers no line at all; any other
    one is cut at its newlines, the pieces joined by newlines being the
    output itself, and each piece goes through the [.py] augmentation, in
    order. *)
Theorem expected_lines_cases (out : string) :
  (out = "" → expected_lines out = None)
  ∧ (out ≠ "" →
     ∃ lines, expected_lines out = Some (augment_line <$> lines)
              ∧ Py.join Py.nl lines = out
              ∧ Forall (λ line, Py.contains Py.nl line = false) lines).
Proof.
  unfold expected_lines. split.
  - by intros ->.
  - intros Hne. rewrite bool_decide_eq_false_2 by done.
    exists (Py.split "010" out). split; [done|]. split.
    + apply join_split.
    + apply split_pieces.
Qed.

Lemma expected_lines_cases_witness :
  ∃ lines, expected_lines ("main:1: note: x" +:+ Py.nl +:+ "done")
           = Some (augment_line <$> lines)
           ∧ Py.join Py.nl lines = "main:1: note: x" +:+ Py.nl +:+ "done"
           ∧ Forall (λ line, Py.contains Py.nl line = false) lines.
Proof.
  apply (expected_lines_cases ("main:1: note: x" +:+ Py.nl +:+ "done")).
  vm_compute. discriminate.
Defined.

End ExpectedLines.

(** * The test name *)

Section TestNames.

Import Definitions.

Implicit Types (s : string) (sep : ascii).

Lemma split_absent sep s :
  Py.contains (String sep "") s = false → Py.split sep s = [s].
Proof.
  induction s as [|c s IH]; [done|].
  rewrite contains_char_cons. intros [Hc Hs]%orb_false_elim.
  apply bool_decide_eq_false in Hc. simpl.
  destruct (Ascii.eqb_spec c sep) as [->|Hne]; [done|]. by rewrite IH.
Qed.

Lemma split_app sep s rest :
  Py.contains (String sep "") s = false →
  Py.split sep (s +:+ String sep rest) = s :: Py.split sep rest.
Proof.
  induction s as [|c s IH].
  - intros _. rewrite str_app_nil_l. simpl. by rewrite Ascii.eqb_refl.
  - rewrite contains_char_cons. intros [Hc Hs]%orb_false_elim.
    apply bool_decide_eq_false in Hc. rewrite str_app_cons. simpl.
    destruct (Ascii.eqb_spec c sep) as [->|Hne]; [done|]. by rewrite IH.
Qed.

(** Pieces without the separator, joined and split again. *)
Lemma split_join sep (l : list string) :
  l ≠ [] → Forall (λ piece, Py.contains (String sep "") piece = false) l →
  Py.split sep (Py.join (String sep "") l) = l.
Proof.
  induction l as [|x l IH]; [done|]. intros _ [Hx Hl]%Forall_cons.
  destruct l as [|y l]; [by apply split_absent|].
  rewrite join_cons_cons.
  change (String sep "" +:+ Py.join (String sep "") (y :: l))
    with (String sep (Py.join (String sep "") (y :: l))).
  rewrite split_app by done. by rewrite IH.
Qed.

(** The decimal text of an integer: it reads back as the numeral without
    leading zeros of that integer. *)
Lemma str_int_decimal (z : Z) :
  ∃ d, NilZero.int_of_string (Py.str (Py.VInt z)) = Some d
       ∧ Z.of_int d = z ∧ Decimal.norm d = d.
Proof.
  exists (Z.to_int z). split; [|split].
  - apply NilZero.isi; destruct z as [|p|p]; simpl; try discriminate;
      intros [= H]; by apply DecimalPos.Unsigned.to_uint_nonnil in H.
  - apply DecimalZ.of_to.
  - rewrite <- DecimalZ.to_of. by rewrite DecimalZ.of_to.
Qed.

(** C9: the externally visible test name is the case name alone when
    item_params is empty, and otherwise the case name followed by
    [[key=val,key2=val2,...]], the pairs in the mapping's insertion order
    (cut at its commas, the text between the brackets gives the pairs back
    in that order, when no pair holds a comma) and each value in its plain
    string form: [None], [True] and [False] for these, a string as it is,
    an integer as its decimal numeral without leading zeros, and a value of
    another type as [str] gives it; case [foo] with item_params
    [{"a": 1, "b": "x"}] yields [foo[a=1,b=x]]. *)
Theorem test_name_format (self : ItemDefinition) :
  (item_params self = [] → test_name self = case self)
  ∧ (item_params self ≠ [] →
     let fields := (λ kv, kv.1 +:+ "=" +:+ Py.str kv.2) <$> item_params self in
     test_name self = case self +:+ "[" +:+ Py.join "," fields +:+ "]"
     ∧ length fields = length (item_params self)
     ∧ (Forall (λ field, Py.contains "," field = false) fields →
        Py.split "," (Py.join "," fields) = fields))
  ∧ (Py.str Py.VNone = "None"
     ∧ Py.str (Py.VBool true) = "True"
     ∧ Py.str (Py.VBool false) = "False"
     ∧ (∀ s, Py.str (Py.VStr s) = s)
     ∧ (∀ text truth, Py.str (Py.VObject text truth) = text)
     ∧ (∀ z, ∃ d, NilZero.int_of_string (Py.str (Py.VInt z)) = Some d
                  ∧ Z.of_int d = z ∧ Decimal.norm d = d)
     ∧ Py.str (Py.VInt 0) = "0"
     ∧ Py.str (Py.VInt (-12)) = "-12")
  ∧ (case self = "foo" →
     item_params self = [("a", Py.VInt 1); ("b", Py.VStr "x")] →
     test_name self = "foo[a=1,b=x]").
Proof.
  unfold test_name. split; [|split; [|split]].
  - intros ->. simpl. apply str_app_nil_r.
  - intros Hne. cbv zeta. rewrite bool_decide_eq_true_2 by done.
    split; [done|]. split; [apply length_fmap|].
    apply (split_join ","%char).
    destruct (item_params self); [done | discriminate].
  - repeat (split; [done|]). split; [apply str_int_decimal|]. done.
  - intros -> ->. reflexivity.
Qed.

End TestNames.

Lemma test_name_format_witness :
  Definitions.test_name (Definitions.new_item "foo" 1) = "foo"
  ∧ Definitions.test_name
      (Definitions.clone_with (Definitions.new_item "foo" 1)
         [("a", Py.VInt 1); ("b", Py.VStr "x")])
    = "foo[a=1,b=x]"
  ∧ Py.split ","
      (Py.join ","
         ((λ kv, kv.1 +:+ "=" +:+ Py.str kv.2) <$>
            [("a", Py.VInt 1); ("b", Py.VStr "x")]))
    = ["a=1"; "b=x"].
Proof.
  split; [|split].
  - destruct (test_name_format (Definitions.new_item "foo" 1)) as (H & _).
    apply H. reflexivity.
  - destruct (test_name_format
      (Definitions.clone_with (Definitions.new_item "foo" 1)
         [("a", Py.VInt 1); ("b", Py.VStr "x")])) as (_ & _ & _ & H).
    apply H; reflexivity.
  - destruct (test_name_format
      (Definitions.clone_with (Definitions.new_item "foo" 1)
         [("a", Py.VInt 1); ("b", Py.VStr "x")])) as (_ & H & _).
    apply H; [discriminate|]. repeat constructor.
Defined.
